(** * The THOR barrier (fastlib/thor/rpc.cc) and the kd-tree index maps
      (fastlib/tree/kdtree.h)

    The barrier is a transient channel whose single transaction counts the
    messages it has received and walks a spanning tree twice: ready messages
    travel from the leaves to the root, wake messages travel back.  The code
    is embedded as state-passing functions over one process: the channel
    registry, the fields of the transaction, the application thread that
    blocks in [Wait], and the ordered list of calls made to the
    collaborators ([WriteFlush], [Register], [Unregister], [Send], ...). *)

From Stdlib Require Import ZArith List Lia Bool.
From stdpp Require Import base option list strings gmap.

Local Open Scope Z_scope.

Module Rpc.

(** ** Data *)

(** [int] is a 32-bit two's-complement integer. *)
Definition INT_MAX : Z := 2147483647.

Definition int_wrap (z : Z) : Z := (z + 2 ^ 31) mod 2 ^ 32 - 2 ^ 31.

(** A message as the barrier sees it: the peer rank, the channel it
    travels on, and the size of its payload ([CreateMessage(peer, 0)]). *)
Record Message : Type := mkMessage {
  msg_peer : Z;
  msg_channel : Z;
  msg_size : Z
}.

(** The identity of a [Channel] object (what a registry slot points to). *)
Definition ChannelRef : Type := nat.

(** Calls to the collaborators, in program order. *)
Inductive Event : Type :=
| EvConstruct                            (* BarrierChannel barrier;        *)
| EvWriteFlush                           (* rpc::WriteFlush()              *)
| EvTransactionInit (channel_num : Z)    (* Transaction::Init(channel_num) *)
| EvTransactionDone                      (* Transaction::Done()            *)
| EvUnregister (channel_num : Z)         (* rpc::Unregister(channel())     *)
| EvRegister (channel_num : Z) (c : ChannelRef)
| EvSend (m : Message)                   (* CreateMessage + Send           *)
| EvDelete (m : Message)                 (* delete message                 *)
| EvCondDone                             (* cond_.Done()                   *)
| EvWait.                                (* cond_.Wait()                   *)

Inductive DoneCondition : Type := Pending | Signalled.

(** Where the thread that called [Barrier] is. *)
Inductive AppThread : Type := Running | Blocked | Returned.

(** The topology collaborator (rpc.h): [rpc::is_root()], [rpc::parent()],
    [rpc::n_children()], [rpc::child(i)] of the current process. *)
Record Topology : Type := mkTopology {
  is_root : bool;
  parent : Z;
  n_children : Z;
  child : Z -> Z
}.

(** One process: the registry, the fields of the transaction
    ([channel()], [n_received_], [cond_]), the calling thread, the calls
    made so far (oldest first). *)
Record World : Type := mkWorld {
  registry : gmap Z ChannelRef;
  channel_ : Z;
  n_received_ : Z;
  cond_ : DoneCondition;
  app : AppThread;
  trace : list Event
}.

Definition emit (e : Event) (w : World) : World :=
  mkWorld (registry w) (channel_ w) (n_received_ w) (cond_ w) (app w)
          (trace w ++ [e]).

Definition set_registry (r : gmap Z ChannelRef) (w : World) : World :=
  mkWorld r (channel_ w) (n_received_ w) (cond_ w) (app w) (trace w).

Definition set_channel (c : Z) (w : World) : World :=
  mkWorld (registry w) c (n_received_ w) (cond_ w) (app w) (trace w).

Definition set_n_received (n : Z) (w : World) : World :=
  mkWorld (registry w) (channel_ w) n (cond_ w) (app w) (trace w).

Definition set_cond (c : DoneCondition) (w : World) : World :=
  mkWorld (registry w) (channel_ w) (n_received_ w) c (app w) (trace w).

Definition set_app (a : AppThread) (w : World) : World :=
  mkWorld (registry w) (channel_ w) (n_received_ w) (cond_ w) a (trace w).

(** ** The collaborators *)

(** Modelled from the spec: the channel registry of rpc.h / rpc_sock.cc is
    not part of the sources at hand.  [Register(id, handler)] installs the
    handler at [id], overwriting what was there. *)
Definition Register (channel_num : Z) (c : ChannelRef) (w : World) : World :=
  emit (EvRegister channel_num c)
       (set_registry (<[channel_num := c]> (registry w)) w).

(** Modelled from the spec: [Unregister(id)] clears the entry at [id]; on
    an empty slot it changes nothing. *)
Definition Unregister (channel_num : Z) (w : World) : World :=
  emit (EvUnregister channel_num)
       (set_registry (delete channel_num (registry w)) w).

(** Modelled from the spec: [WriteFlush()] hands the earlier sends to the
    transport; this process only records that it was called. *)
Definition WriteFlush (w : World) : World := emit EvWriteFlush w.

(** Modelled from the spec: [Transaction::Init(channel_num)] binds the
    transaction to its channel number, which [channel()] returns. *)
Definition Transaction_Init (channel_num : Z) (w : World) : World :=
  emit (EvTransactionInit channel_num) (set_channel channel_num w).

(** Modelled from the spec: [Transaction::Done()] of the base class, with
    no effect on the fields modelled here. *)
Definition Transaction_Done (w : World) : World := emit EvTransactionDone w.

(** Modelled from the spec: the one-shot [DoneCondition].  [Done()] moves
    it to done and releases a thread blocked in [Wait()]; [Wait()] returns
    at once when the condition is already done and blocks otherwise. *)
Definition DoneCondition_Done (w : World) : World :=
  emit EvCondDone
       (set_app (match app w with Blocked => Returned | a => a end)
                (set_cond Signalled w)).

Definition DoneCondition_Wait (w : World) : World :=
  emit EvWait
       (set_app (match cond_ w with Signalled => Returned | Pending => Blocked end)
                w).

(** ** BarrierChannel::BarrierTransaction *)

Section Process.

Variable topo : Topology.
Variable this : ChannelRef.

(** [DoMessage_(peer)]: create a message of size 0 for [peer] and send it. *)
Definition DoMessage_ (peer : Z) (w : World) : World :=
  emit (EvSend (mkMessage peer (channel_ w) 0)) w.

(** [for (int i = 0; i < rpc::n_children(); i++) DoMessage_(rpc::child(i));]
    entered at index [i] with [fuel] iterations left. *)
Fixpoint wake_children (fuel : nat) (i : Z) (w : World) : World :=
  match fuel with
  | O => w
  | S fuel' => wake_children fuel' (i + 1) (DoMessage_ (child topo i) w)
  end.

Definition CheckState_ (w : World) : World :=
  if n_children topo <=? n_received_ w then
    if is_root topo || (n_children topo <? n_received_ w) then
      let w1 := Transaction_Done w in
      let w2 := Unregister (channel_ w1) w1 in
      let w3 := wake_children (Z.to_nat (n_children topo)) 0 w2 in
      DoneCondition_Done w3
    else
      DoMessage_ (parent topo) w
  else w.

(** [for (int i = 0; i < rpc::n_children(); i++)
       if (peer == rpc::child(i)) return true;
     return false;] *)
Fixpoint is_child_from (fuel : nat) (i : Z) (peer : Z) : bool :=
  match fuel with
  | O => false
  | S fuel' =>
      if peer =? child topo i then true else is_child_from fuel' (i + 1) peer
  end.

Definition IsValidSender_ (peer : Z) (w : World) : bool :=
  if n_received_ w =? n_children topo then peer =? parent topo
  else is_child_from (Z.to_nat (n_children topo)) 0 peer.

Definition Init (channel_num : Z) (w : World) : World :=
  CheckState_ (set_n_received 0 (Transaction_Init channel_num w)).

Definition Wait (w : World) : World := DoneCondition_Wait w.

(** [None] is the FATAL abort of the process. *)
Definition HandleMessage (m : Message) (w : World) : option World :=
  if negb (IsValidSender_ (msg_peer m) w) then None
  else
    let w1 := emit (EvDelete m) w in
    let w2 := set_n_received (int_wrap (n_received_ w1 + 1)) w1 in
    Some (CheckState_ w2).

(** ** BarrierChannel and rpc::Barrier *)

Definition Doit (channel_num : Z) (w : World) : World :=
  let w1 := Init channel_num w in
  let w2 := Register channel_num this w1 in
  Wait w2.

(** [BarrierChannel barrier;]: the constructors are empty, the
    [DoneCondition] member starts pending, [n_received_] holds whatever
    was there. *)
Definition Construct (w : World) : World :=
  emit EvConstruct (set_app Running (set_cond Pending w)).

Definition Barrier (channel_num : Z) (w : World) : World :=
  let w1 := Construct w in
  let w2 := WriteFlush w1 in
  Doit channel_num w2.

(** Modelled from the spec: the dispatch path of the registry, run by the
    dispatch thread.  A message for an id that is not registered is fatal;
    otherwise the handler's [GetTransaction] yields its transaction, whose
    [HandleMessage] consumes the message.  Handlers other than [this]
    belong to other operations and leave this transaction alone. *)
Definition Dispatch (m : Message) (w : World) : option World :=
  match registry w !! msg_channel m with
  | None => None
  | Some c => if decide (c = this) then HandleMessage m w else Some w
  end.

(** The state in which [Init], called from [Barrier], runs its completion
    check. *)
Definition at_init_check (channel_num : Z) (w : World) : World :=
  set_n_received 0 (Transaction_Init channel_num (WriteFlush (Construct w))).

(** What holds of a process from the return of [Doit]'s registration on,
    whatever is delivered: the transaction is bound to its channel, the
    channel object is registered nowhere else, the count is at most one
    above [n_children], and while the channel is registered the count is at
    most [n_children]. *)
Definition barrier_inv (channel_num : Z) (w : World) : Prop :=
  channel_ w = channel_num /\
  (forall c, c <> channel_num -> registry w !! c <> Some this) /\
  0 <= n_received_ w <= n_children topo + 1 /\
  (registry w !! channel_num = None \/
   (registry w !! channel_num = Some this /\
    n_received_ w <= n_children topo)).

(** The sender rule as the specification words it: while the count is
    below [n_children] the sender must be one of the children; once the
    count equals [n_children] the sender must be the parent. *)
Definition is_a_child (peer : Z) : Prop :=
  exists i, 0 <= i < n_children topo /\ peer = child topo i.

Definition expected_sender (n_received peer : Z) : Prop :=
  (n_received < n_children topo /\ is_a_child peer) \/
  (n_received = n_children topo /\ peer = parent topo).

(** The dispatch thread delivering a sequence of inbound messages. *)
Fixpoint deliver (ms : list Message) (w : World) : option World :=
  match ms with
  | [] => Some w
  | m :: ms' =>
      match Dispatch m w with
      | None => None
      | Some w' => deliver ms' w'
      end
  end.

(** ** Whole runs *)

(** The completion test of [CheckState_], on a count. *)
Definition completed (n : Z) : bool :=
  (n_children topo <=? n) && (is_root topo || (n_children topo <? n)).

(** The message [DoMessage_] builds for the parent, and for each child in
    index order, on channel [ch]. *)
Definition ready_message (ch : Z) : Message := mkMessage (parent topo) ch 0.

Definition wake_messages (ch : Z) : list Message :=
  (fun i => mkMessage (child topo i) ch 0) <$> seqZ 0 (n_children topo).

(** The messages handed to [Send], in order, by a process whose count
    is [n]. *)
Definition sent_by (ch n : Z) : list Message :=
  (if negb (is_root topo) && (n_children topo <=? n)
   then [ready_message ch] else []) ++
  (if completed n then wake_messages ch else []).

(** The messages among a sequence of calls. *)
Definition sends_of (l : list Event) : list Message :=
  omap (fun e => match e with EvSend m => Some m | _ => None end) l.

(** What holds along a run that starts with [Barrier] in [w0]. *)
Definition run_inv (channel_num : Z) (w0 w : World) : Prop :=
  barrier_inv channel_num w /\
  (is_root topo = true -> registry w !! channel_num = Some this ->
     n_received_ w < n_children topo \/ n_children topo = 0) /\
  (completed (n_received_ w) = false ->
     registry w !! channel_num = Some this) /\
  (if completed (n_received_ w)
   then app w = Returned /\ cond_ w = Signalled
   else app w = Blocked /\ cond_ w = Pending) /\
  (exists l, trace w = trace w0 ++ l /\
             sends_of l = sent_by channel_num (n_received_ w)).

End Process.

(** [a] is issued strictly before [b] in the call sequence [l]. *)
Definition before (a b : Event) (l : list Event) : Prop :=
  exists i j : nat, (i < j)%nat /\ l !! i = Some a /\ l !! j = Some b.

(** The calls made between two states of the same run. *)
Definition calls_since (w w' : World) : list Event :=
  drop (length (trace w)) (trace w').

(** One size-0 message on channel [ch] to each of the children
    [child(i)], [child(i+1)], ..., [count] of them, in index order. *)
Definition wake_calls (topo : Topology) (i : Z) (count : Z) (ch : Z)
  : list Event :=
  (fun k => EvSend (mkMessage (child topo k) ch 0)) <$> seqZ i count.

(** The topology of a process whose children are listed in [cs]. *)
Definition node (root : bool) (up : Z) (cs : list Z) : Topology :=
  mkTopology root up (Z.of_nat (length cs)) (fun i => nth (Z.to_nat i) cs (-1)).

(** A group of one process. *)
Definition alone : Topology := node true 0 [].

(** Four processes: 0 is the root with children 1 and 2, 3 is the child
    of 1. *)
Definition tree4 (rank : Z) : Topology :=
  if rank =? 0 then node true 0 [1; 2]
  else if rank =? 1 then node false 0 [3]
  else if rank =? 2 then node false 0 []
  else node false 1 [].

(** A process before the barrier: nothing registered, nothing called. *)
Definition idle : World := mkWorld ∅ 0 0 Pending Running [].

(** A process blocked in [Barrier(10)], its channel object 7 registered,
    that has counted [n] messages. *)
Definition waiting (n : Z) : World :=
  mkWorld {[10 := 7%nat]} 10 n Pending Blocked [].

End Rpc.

Module KdTree.

(** ** ArrayList<index_t>

    A cell is [None] until it has been written: [Init(n)] allocates [n]
    cells and leaves them unset.  An access outside the list, and a read of
    an unset cell, have no defined result ([None]). *)
Abbreviation ArrayList := (list (option Z)).

Definition ArrayList_Init (n : Z) : ArrayList := replicate (Z.to_nat n) None.

Definition ArrayList_get (a : ArrayList) (i : Z) : option Z :=
  if 0 <=? i then mjoin (a !! Z.to_nat i) else None.

Definition ArrayList_set (a : ArrayList) (i v : Z) : option ArrayList :=
  if (0 <=? i) && (i <? Z.of_nat (length a))
  then Some (<[Z.to_nat i := Some v]> a)
  else None.

(** An [ArrayList<index_t> *] argument: [NULL], or a pointer to a list
    on which [Init] has not been called. *)
Inductive ArrayListArg : Type := NULL | Uninitialized.

Section MakeKdTree.

(** A column of the matrix (one point) and the tree type [TKdTree]. *)
Variables (Col TKdTree : Type).

(** [new TKdTree()], [Init(0, n_cols)], [bound().Init(n_rows)] and
    [FindBoundFromMatrix] (spacetree.h, bounds.h, kdtree_impl.h). *)
Variable new_root : list Col -> TKdTree.

(** [tree_kdtree_private::SplitKdTreeMidpoint] (kdtree_impl.h), which
    re-orders the matrix, builds the tree below the node, and works on the
    index array through the raw pointer it is given. *)
Variable SplitKdTreeMidpoint :
  list Col -> TKdTree -> Z -> option ArrayList ->
  list Col * TKdTree * option ArrayList.

Record Built : Type := mkBuilt {
  matrix : list Col;
  root : TKdTree;
  old_from_new : option ArrayList;
  new_from_old : option ArrayList
}.

(** [for (index_t i = 0; i < n_cols; i++) ( *old_from_new)[i] = i;] *)
Fixpoint fill_old_from_new (fuel : nat) (i : Z) (a : ArrayList)
  : option ArrayList :=
  match fuel with
  | O => Some a
  | S fuel' => a' ← ArrayList_set a i i; fill_old_from_new fuel' (i + 1) a'
  end.

(** [for (index_t i = 0; i < n_cols; i++)
       ( *new_from_old)[( *old_from_new)[i]] = i;]
    where [old_from_new] may be the null pointer. *)
Fixpoint fill_new_from_old (fuel : nat) (i : Z)
    (old_from_new : option ArrayList) (a : ArrayList) : option ArrayList :=
  match fuel with
  | O => Some a
  | S fuel' =>
      ofn ← old_from_new;
      v ← ArrayList_get ofn i;
      a' ← ArrayList_set a v i;
      fill_new_from_old fuel' (i + 1) old_from_new a'
  end.

Definition MakeKdTreeMidpoint (matrix : list Col) (leaf_size : Z)
    (old_from_new new_from_old : ArrayListArg) : option Built :=
  let n := Z.of_nat (length matrix) in
  ofn0 ← match old_from_new with
         | Uninitialized =>
             Some <$> fill_old_from_new (Z.to_nat n) 0 (ArrayList_Init n)
         | NULL => Some None
         end;
  let node := new_root matrix in
  let '(matrix', node', ofn1) :=
    SplitKdTreeMidpoint matrix node leaf_size ofn0 in
  let n' := Z.of_nat (length matrix') in
  nfo ← match new_from_old with
        | Uninitialized =>
            Some <$> fill_new_from_old (Z.to_nat n') 0 ofn1 (ArrayList_Init n')
        | NULL => Some None
        end;
  Some (mkBuilt matrix' node' ofn1 nfo).

End MakeKdTree.

(** A stand-in for the split, for running the construction: it moves the
    first column, and the first index with it, to the end. *)
Definition rotate {A : Type} (l : list A) : list A :=
  match l with
  | [] => []
  | x :: l' => l' ++ [x]
  end.

Definition split_rotate {Col : Type} (m : list Col) (nd : unit) (leaf : Z)
    (ofn : option ArrayList) : list Col * unit * option ArrayList :=
  (rotate m, nd, rotate <$> ofn).

(** The index array the split is given for a matrix: the identity map
    over its columns when [old_from_new] is requested, none otherwise. *)
Definition index_array_for {Col : Type} (matrix : list Col)
    (o : ArrayListArg) : option ArrayList :=
  match o with
  | Uninitialized => Some (Some <$> seqZ 0 (Z.of_nat (length matrix)))
  | NULL => None
  end.

(** ** LoadKdTree *)

(** The calls [LoadKdTree] makes to the parameter and timer functions of
    fx.h, to [data::Load] and to [MakeKdTreeMidpoint], in program order. *)
Inductive Call : Type :=
| FxParamStr (name : string) (def : option string)
| FxParamInt (name : string) (def : Z)
| FxTimerStart (name : string)
| FxTimerStop (name : string)
| DataLoad (fname : option string)
| MakeTree (leaf_size : Z) (old_from_new_ptr : ArrayListArg).

(** Every timer that is started is stopped, innermost first; [running]
    holds the timers started and not yet stopped. *)
Fixpoint timers_balanced (running : list string) (l : list Call) : bool :=
  match l with
  | [] => match running with [] => true | _ => false end
  | FxTimerStart n :: l' => timers_balanced (n :: running) l'
  | FxTimerStop n :: l' =>
      match running with
      | r :: rs => String.eqb r n && timers_balanced rs l'
      | [] => false
      end
  | _ :: l' => timers_balanced running l'
  end.

Section LoadKdTree.

Variables (Col TKdTree : Type).
Variable new_root : list Col -> TKdTree.
Variable SplitKdTreeMidpoint :
  list Col -> TKdTree -> Z -> option ArrayList ->
  list Col * TKdTree * option ArrayList.

(** [success_t] and [SUCCESS_PASS] (base/common.h). *)
Variable success_t : Type.
Variable SUCCESS_PASS : success_t.

(** What the module answers to [fx_param_str(module, name, def)] and to
    [fx_param_int(module, name, def)] (fx.h); a null string is [None].
    The three names read here are distinct, so each answer is taken from
    the module as it is passed in. *)
Variable fx_param_str : string -> option string -> option string.
Variable fx_param_int : string -> Z -> Z.

(** [data::Load(fname, matrix)]: its status and what it leaves in the
    matrix. *)
Variable data_Load : option string -> success_t * list Col.

(** What the caller holds afterwards: the status, the matrix and the tree
    pointer ([None] while never assigned), the contents of the index list
    ([None] while [Init] was never called on it), and the calls made. *)
Record Loaded : Type := mkLoaded {
  success : success_t;
  loaded_matrix : option (list Col);
  tree : option TKdTree;
  loaded_old_from_new : option ArrayList;
  calls : list Call
}.

(** [None] stands for undefined behaviour: [strcmp] on a null [type], or
    an undefined [MakeKdTreeMidpoint]. *)
Definition LoadKdTree (old_from_new_ptr : ArrayListArg) : option Loaded :=
  type ← fx_param_str "type" (Some "text");
  let fname := fx_param_str "" None in
  let entry := [FxParamStr "type" (Some "text"); FxParamStr "" None;
                FxTimerStart "load"] in
  if String.eqb type "text" then
    let leaflen := fx_param_int "leaflen" 20 in
    let '(status, loaded) := data_Load fname in
    b ← MakeKdTreeMidpoint Col TKdTree new_root SplitKdTreeMidpoint
          loaded leaflen old_from_new_ptr NULL;
    Some (mkLoaded status
            (Some (matrix Col TKdTree b)) (Some (root Col TKdTree b))
            (old_from_new Col TKdTree b)
            (entry ++
             [FxParamInt "leaflen" 20;
              FxTimerStart "load_matrix"; DataLoad fname;
              FxTimerStop "load_matrix";
              FxTimerStart "make_tree"; MakeTree leaflen old_from_new_ptr;
              FxTimerStop "make_tree";
              FxTimerStop "load"]))
  else
    Some (mkLoaded SUCCESS_PASS None None None (entry ++ [FxTimerStop "load"])).

End LoadKdTree.

(** Stand-ins for running [LoadKdTree]: a module without parameters, where
    every read yields its default; a module whose [type] is "csv"; a loader
    that yields three columns. *)
Definition params_default (name : string) (def : option string)
  : option string := def.

Definition params_csv (name : string) (def : option string)
  : option string :=
  if String.eqb name "type" then Some "csv"%string else def.

Definition ints_default (name : string) (def : Z) : Z := def.

Definition load_three (fname : option string) : bool * list nat :=
  (true, [5; 6; 7]%nat).

End KdTree.

(** * Properties of the barrier *)

Import Rpc.

Section BarrierFacts.

Variable topo : Topology.
Variable this : ChannelRef.

Lemma wake_children_world (fuel : nat) : forall (i : Z) (w : World),
  wake_children topo fuel i w =
  mkWorld (registry w) (channel_ w) (n_received_ w) (cond_ w) (app w)
          (trace w ++ wake_calls topo i (Z.of_nat fuel) (channel_ w)).
Proof.
  induction fuel as [|fuel IH]; intros i w.
  - destruct w; cbn. unfold wake_calls. cbn. by rewrite app_nil_r.
  - cbn [wake_children]. rewrite IH. unfold wake_calls.
    rewrite (seqZ_cons i (Z.of_nat (S fuel))) by lia.
    replace (Z.pred (Z.of_nat (S fuel))) with (Z.of_nat fuel) by lia.
    replace (Z.succ i) with (i + 1) by lia.
    cbn. by rewrite <- app_assoc.
Qed.

Lemma calls_since_app (w w' : World) (l : list Event) :
  trace w' = trace w ++ l -> calls_since w w' = l.
Proof. intros E. unfold calls_since. rewrite E. apply drop_app_length. Qed.

(** The three outcomes of the completion check, as whole states. *)
Lemma CheckState_counting (w : World) :
  n_received_ w < n_children topo -> CheckState_ topo w = w.
Proof.
  intros H. unfold CheckState_.
  destruct (Z.leb_spec (n_children topo) (n_received_ w)); [lia | done].
Qed.

Lemma CheckState_ready (w : World) :
  is_root topo = false -> n_received_ w = n_children topo ->
  CheckState_ topo w = DoMessage_ (parent topo) w.
Proof.
  intros Hr Hn. unfold CheckState_. rewrite Hr.
  destruct (Z.leb_spec (n_children topo) (n_received_ w)); [|lia].
  destruct (Z.ltb_spec (n_children topo) (n_received_ w)); [lia | done].
Qed.

Lemma CheckState_complete (w : World) :
  n_children topo <= n_received_ w ->
  is_root topo = true \/ n_children topo < n_received_ w ->
  CheckState_ topo w =
  DoneCondition_Done
    (mkWorld (delete (channel_ w) (registry w)) (channel_ w) (n_received_ w)
             (cond_ w) (app w)
             (trace w ++ [EvTransactionDone; EvUnregister (channel_ w)] ++
              wake_calls topo 0 (n_children topo) (channel_ w))).
Proof.
  intros Hle Hc. unfold CheckState_.
  destruct (Z.leb_spec (n_children topo) (n_received_ w)); [|lia].
  assert (is_root topo || (n_children topo <? n_received_ w) = true) as ->.
  { destruct Hc as [-> | Hlt]; [done|].
    apply orb_true_iff. right. by apply Z.ltb_lt. }
  cbn zeta. rewrite wake_children_world. cbn.
  rewrite <- !app_assoc. do 3 f_equal.
  unfold wake_calls, seqZ. by rewrite Nat2Z.id.
Qed.

(** C7: when the completion branch fires (root with all children counted,
    or a count above [n_children]), the check calls [Unregister] on its
    channel once, sends one size-0 message to each child [child(i)],
    [0 <= i < n_children], and signals the condition once, which releases
    the thread blocked in [Wait]; the channel is then unregistered, so a
    further message for it is fatal instead of reaching the transaction. *)
Theorem completion_branch_calls (w : World) :
  n_children topo <= n_received_ w ->
  is_root topo = true \/ n_children topo < n_received_ w ->
  calls_since w (CheckState_ topo w) =
    [EvTransactionDone; EvUnregister (channel_ w)] ++
    ((fun i => EvSend (mkMessage (child topo i) (channel_ w) 0)) <$>
       seqZ 0 (n_children topo)) ++
    [EvCondDone] /\
  registry (CheckState_ topo w) = delete (channel_ w) (registry w) /\
  cond_ (CheckState_ topo w) = Signalled /\
  (app w = Blocked -> app (CheckState_ topo w) = Returned) /\
  (forall m, msg_channel m = channel_ w ->
     Dispatch topo this m (CheckState_ topo w) = None).
Proof.
  intros Hle Hc. rewrite (CheckState_complete w Hle Hc).
  split; [|split; [|split; [|split]]].
  - apply calls_since_app. cbn. by rewrite <- !app_assoc.
  - done.
  - done.
  - cbn. by intros ->.
  - intros m Em. unfold Dispatch. cbn [registry DoneCondition_Done emit
      set_app set_cond]. by rewrite Em, lookup_delete_eq.
Qed.

(** C9: in the completion branch the condition is signalled as the last
    step, from a state in which the channel is already unregistered and
    every wake message has already been sent; up to that step the condition
    and the waiting thread are as they were. *)
Theorem done_signalled_last (w : World) :
  n_children topo <= n_received_ w ->
  is_root topo = true \/ n_children topo < n_received_ w ->
  exists w3 : World,
    CheckState_ topo w = DoneCondition_Done w3 /\
    cond_ w3 = cond_ w /\ app w3 = app w /\
    registry w3 !! channel_ w = None /\
    EvUnregister (channel_ w) ∈ calls_since w w3 /\
    (forall i, 0 <= i < n_children topo ->
       EvSend (mkMessage (child topo i) (channel_ w) 0) ∈ calls_since w w3) /\
    EvCondDone ∉ calls_since w w3.
Proof.
  intros Hle Hc. rewrite (CheckState_complete w Hle Hc).
  eexists. split; [reflexivity|]. cbn [cond_ app registry].
  erewrite calls_since_app by (cbn [trace]; reflexivity).
  repeat split.
  - apply lookup_delete_eq.
  - apply elem_of_app. left. apply elem_of_cons. right.
    apply elem_of_cons. by left.
  - intros i Hi. apply elem_of_app. right. unfold wake_calls.
    apply list_elem_of_fmap. exists i. split; [done|].
    apply elem_of_seqZ. lia.
  - intros [H|H]%elem_of_app.
    + rewrite !elem_of_cons, elem_of_nil in H.
      destruct H as [H|[H|[]]]; discriminate.
    + unfold wake_calls in H. apply list_elem_of_fmap in H as (k & Hk & _).
      discriminate.
Qed.

(** C6: on a process that is not the root, the check run with
    [n_received_ = n_children] sends one size-0 message to the parent and
    does nothing else: the registry, the condition and the waiting thread
    are unchanged.  This is what [Init] does on a leaf and what
    [HandleMessage] does for the message that completes the count. *)
Theorem ready_sent_to_parent (w : World) :
  is_root topo = false ->
  (n_received_ w = n_children topo ->
     calls_since w (CheckState_ topo w) =
       [EvSend (mkMessage (parent topo) (channel_ w) 0)] /\
     registry (CheckState_ topo w) = registry w /\
     cond_ (CheckState_ topo w) = cond_ w /\
     app (CheckState_ topo w) = app w /\
     n_received_ (CheckState_ topo w) = n_received_ w) /\
  (forall channel_num,
     n_children topo = 0 ->
     calls_since w (Init topo channel_num w) =
       [EvTransactionInit channel_num;
        EvSend (mkMessage (parent topo) channel_num 0)] /\
     registry (Init topo channel_num w) = registry w /\
     cond_ (Init topo channel_num w) = cond_ w /\
     app (Init topo channel_num w) = app w) /\
  (forall m,
     IsValidSender_ topo (msg_peer m) w = true ->
     int_wrap (n_received_ w + 1) = n_children topo ->
     exists w',
       HandleMessage topo m w = Some w' /\
       calls_since w w' =
         [EvDelete m; EvSend (mkMessage (parent topo) (channel_ w) 0)] /\
       registry w' = registry w /\ cond_ w' = cond_ w /\ app w' = app w).
Proof.
  intros Hr. split; [|split].
  - intros Hn. rewrite (CheckState_ready w Hr Hn).
    repeat split. by apply calls_since_app.
  - intros ch H0. unfold Init. rewrite CheckState_ready; [|done|cbn; lia].
    repeat split. apply calls_since_app. cbn. by rewrite <- app_assoc.
  - intros m Hv Hn. unfold HandleMessage. rewrite Hv. cbn [negb].
    eexists. split; [reflexivity|].
    rewrite CheckState_ready; [|done|cbn; lia].
    repeat split. apply calls_since_app. cbn. by rewrite <- app_assoc.
Qed.

(** The search loop of [IsValidSender_] finds exactly the children. *)
Lemma is_child_from_true (peer : Z) (fuel : nat) : forall i : Z,
  is_child_from topo fuel i peer = true <->
  exists k, i <= k < i + Z.of_nat fuel /\ peer = child topo k.
Proof.
  induction fuel as [|fuel IH]; intros i; cbn [is_child_from].
  - split; [discriminate|]. intros (k & Hk & _). lia.
  - destruct (Z.eqb_spec peer (child topo i)) as [E|E].
    + split; [|done]. intros _. exists i. split; [lia|done].
    + rewrite IH. split.
      * intros (k & Hk & Ek). exists k. split; [lia|done].
      * intros (k & Hk & Ek). exists k. split; [|done].
        destruct (decide (k = i)) as [->|]; [done|lia].
Qed.

Lemma is_child_search (peer : Z) :
  is_child_from topo (Z.to_nat (n_children topo)) 0 peer = true <->
  is_a_child topo peer.
Proof.
  rewrite is_child_from_true. unfold is_a_child.
  split; intros (k & Hk & Ek); exists k; (split; [lia|done]).
Qed.

Lemma CheckState_fields (w : World) :
  n_received_ (CheckState_ topo w) = n_received_ w /\
  channel_ (CheckState_ topo w) = channel_ w /\
  exists l, trace (CheckState_ topo w) = trace w ++ l.
Proof.
  destruct (Z.lt_ge_cases (n_received_ w) (n_children topo)) as [Hlt|Hge].
  { rewrite CheckState_counting by done.
    repeat split. exists []. by rewrite app_nil_r. }
  destruct (is_root topo) eqn:Hr.
  { rewrite CheckState_complete by auto. cbn. repeat split.
    eexists. by rewrite <- !app_assoc. }
  destruct (decide (n_received_ w = n_children topo)) as [E|NE].
  { rewrite CheckState_ready by done. cbn. repeat split. by eexists. }
  rewrite CheckState_complete by (try right; lia). cbn. repeat split.
  eexists. by rewrite <- !app_assoc.
Qed.

(** C3: [HandleMessage] aborts exactly when the sender is not the one
    expected in the current phase (a child while the count is below
    [n_children], the parent once it equals [n_children]); a rank that is
    neither a child nor the parent aborts it in every state; a message that
    is accepted is counted once. *)
Theorem fatal_iff_unexpected_sender (w : World) (m : Message) :
  (n_received_ w <= n_children topo ->
     (HandleMessage topo m w = None <->
      ~ expected_sender topo (n_received_ w) (msg_peer m))) /\
  (~ is_a_child topo (msg_peer m) -> msg_peer m <> parent topo ->
     HandleMessage topo m w = None) /\
  (forall w', HandleMessage topo m w = Some w' ->
     n_received_ w' = int_wrap (n_received_ w + 1)).
Proof.
  unfold HandleMessage, IsValidSender_, expected_sender.
  split; [|split].
  - intros Hle. destruct (Z.eqb_spec (n_received_ w) (n_children topo)) as [E|NE].
    + destruct (Z.eqb_spec (msg_peer m) (parent topo)) as [Ep|NEp]; cbn [negb].
      * split; [discriminate|]. intros H. destruct H. by right.
      * split; [|done]. intros _ [[Hlt _]|[_ Ep]]; [lia|done].
    + destruct (is_child_from topo _ 0 (msg_peer m)) eqn:Hc; cbn [negb].
      * apply is_child_search in Hc.
        split; [discriminate|]. intros H. destruct H. left. split; [lia|done].
      * split; [|done]. intros _ [[_ Hch]|[E _]]; [|done].
        apply is_child_search in Hch. congruence.
  - intros Hnc Hnp.
    destruct (Z.eqb_spec (n_received_ w) (n_children topo)) as [E|NE].
    + destruct (Z.eqb_spec (msg_peer m) (parent topo)); [done|reflexivity].
    + destruct (is_child_from topo _ 0 (msg_peer m)) eqn:Hc; [|reflexivity].
      apply is_child_search in Hc. done.
  - intros w'. destruct (negb _); [discriminate|]. intros [= <-].
    by rewrite (proj1 (CheckState_fields _)).
Qed.

(** ** The entry point *)

Lemma lookup_past_3 (a b c x : Event) (cs rest : list Event) :
  ([a; b; c] ++ cs ++ x :: rest) !! (3 + length cs)%nat = Some x.
Proof.
  replace ([a; b; c] ++ cs ++ x :: rest) with (([a; b; c] ++ cs) ++ x :: rest)
    by (by rewrite <- app_assoc).
  apply list_lookup_middle. rewrite length_app. cbn. lia.
Qed.

Lemma lookup_past_4 (a b c x y : Event) (cs rest : list Event) :
  ([a; b; c] ++ cs ++ x :: y :: rest) !! (4 + length cs)%nat = Some y.
Proof.
  replace ([a; b; c] ++ cs ++ x :: y :: rest)
    with (([a; b; c] ++ cs ++ [x]) ++ y :: rest)
    by (by rewrite <- !app_assoc).
  apply list_lookup_middle. rewrite !length_app. cbn. lia.
Qed.

Lemma Barrier_unfold (channel_num : Z) (w : World) :
  Barrier topo this channel_num w =
  Wait (Register channel_num this (CheckState_ topo (at_init_check channel_num w))).
Proof. reflexivity. Qed.

Lemma Barrier_trace (channel_num : Z) (w : World) :
  exists cs,
    trace (Barrier topo this channel_num w) =
    trace w ++ [EvConstruct; EvWriteFlush; EvTransactionInit channel_num] ++
    cs ++ [EvRegister channel_num this; EvWait].
Proof.
  rewrite Barrier_unfold.
  destruct (CheckState_fields (at_init_check channel_num w)) as (_ & _ & cs & E).
  exists cs. cbn. rewrite E. cbn. by rewrite <- !app_assoc.
Qed.

Lemma HandleMessage_trace (m : Message) (w w' : World) :
  HandleMessage topo m w = Some w' -> exists l, trace w' = trace w ++ l.
Proof.
  unfold HandleMessage. destruct (negb _); [discriminate|]. intros [= <-].
  match goal with |- context [CheckState_ topo ?x] =>
    destruct (CheckState_fields x) as (_ & _ & l & E) end.
  rewrite E. cbn. eexists. by rewrite <- app_assoc.
Qed.

Lemma Dispatch_trace (m : Message) (w w' : World) :
  Dispatch topo this m w = Some w' -> exists l, trace w' = trace w ++ l.
Proof.
  unfold Dispatch. destruct (registry w !! msg_channel m); [|discriminate].
  case_decide.
  - apply HandleMessage_trace.
  - intros [= <-]. exists []. by rewrite app_nil_r.
Qed.

Lemma deliver_trace (ms : list Message) : forall w w' : World,
  deliver topo this ms w = Some w' -> exists l, trace w' = trace w ++ l.
Proof.
  induction ms as [|m ms IH]; intros w w'; cbn [deliver].
  - intros [= <-]. exists []. by rewrite app_nil_r.
  - destruct (Dispatch topo this m w) as [w1|] eqn:D; [|discriminate].
    intros H. apply IH in H as (l2 & E2).
    apply Dispatch_trace in D as (l1 & E1).
    exists (l1 ++ l2). by rewrite E2, E1, <- app_assoc.
Qed.

(** C8: [WriteFlush] is the second call of [Barrier], after the empty
    constructors; the registration of the channel and every message the
    barrier sends, during the call and while its messages are delivered,
    come later in the call sequence. *)
Theorem flush_before_negotiation (channel_num : Z) (ms : list Message)
    (w w' : World) :
  deliver topo this ms (Barrier topo this channel_num w) = Some w' ->
  calls_since w w' !! 0%nat = Some EvConstruct /\
  calls_since w w' !! 1%nat = Some EvWriteFlush /\
  registry (WriteFlush (Construct w)) = registry w /\
  before EvWriteFlush (EvRegister channel_num this) (calls_since w w') /\
  (forall (i : nat) (e : Event),
     calls_since w w' !! i = Some e ->
     (exists c h, e = EvRegister c h) \/ (exists m, e = EvSend m) ->
     (1 < i)%nat).
Proof.
  intros D. apply deliver_trace in D as (l & E).
  destruct (Barrier_trace channel_num w) as (cs & B).
  rewrite B, <- !app_assoc in E. apply calls_since_app in E. rewrite E.
  split; [done|]. split; [done|]. split; [done|]. split.
  - exists 1%nat, (3 + length cs)%nat. split; [lia|]. split; [done|].
    exact (lookup_past_3 _ _ _ _ cs _).
  - intros i e Hi He.
    destruct i as [|[|i]]; [| |lia]; cbn in Hi; injection Hi as <-;
      destruct He as [(c & h & He)|(m & He)]; discriminate.
Qed.

(** C2, as the code has it: [Barrier] constructs the transient channel
    first and flushes next; after the flush it runs [Init] on the
    transaction and registers the channel at the given id; it waits on the
    condition last, after both. *)
Theorem barrier_call_order (channel_num : Z) (w : World) :
  before EvConstruct EvWriteFlush
    (calls_since w (Barrier topo this channel_num w)) /\
  before EvWriteFlush (EvTransactionInit channel_num)
    (calls_since w (Barrier topo this channel_num w)) /\
  before EvWriteFlush (EvRegister channel_num this)
    (calls_since w (Barrier topo this channel_num w)) /\
  before (EvTransactionInit channel_num) EvWait
    (calls_since w (Barrier topo this channel_num w)) /\
  before (EvRegister channel_num this) EvWait
    (calls_since w (Barrier topo this channel_num w)) /\
  last (calls_since w (Barrier topo this channel_num w)) = Some EvWait.
Proof.
  destruct (Barrier_trace channel_num w) as (cs & B).
  apply calls_since_app in B. rewrite B.
  assert (([EvConstruct; EvWriteFlush; EvTransactionInit channel_num] ++
           cs ++ [EvRegister channel_num this; EvWait]) !! (3 + length cs)%nat
          = Some (EvRegister channel_num this)) as HR.
  { apply lookup_past_3. }
  assert (([EvConstruct; EvWriteFlush; EvTransactionInit channel_num] ++
           cs ++ [EvRegister channel_num this; EvWait]) !! (4 + length cs)%nat
          = Some EvWait) as HW.
  { apply lookup_past_4. }
  repeat split.
  - exists 0%nat, 1%nat. repeat split; lia.
  - exists 1%nat, 2%nat. repeat split; lia.
  - exists 1%nat, (3 + length cs)%nat. repeat split; [lia|done].
  - exists 2%nat, (4 + length cs)%nat. repeat split; [lia|done].
  - exists (3 + length cs)%nat, (4 + length cs)%nat. repeat split; [lia|done|done].
  - replace ([EvConstruct; EvWriteFlush; EvTransactionInit channel_num] ++
             cs ++ [EvRegister channel_num this; EvWait])
      with (([EvConstruct; EvWriteFlush; EvTransactionInit channel_num] ++
             cs ++ [EvRegister channel_num this]) ++ [EvWait])
      by (by rewrite <- !app_assoc).
    apply last_snoc.
Qed.

(** ** The bound on the count *)

Lemma int_wrap_small (z : Z) : - 2 ^ 31 <= z < 2 ^ 31 -> int_wrap z = z.
Proof.
  intros H. unfold int_wrap.
  change (2 ^ 31) with 2147483648 in *. change (2 ^ 32) with 4294967296.
  rewrite Z.mod_small; lia.
Qed.

Lemma CheckState_registry (w : World) :
  (registry (CheckState_ topo w) = registry w /\
   (n_received_ w < n_children topo \/
    (is_root topo = false /\ n_received_ w = n_children topo))) \/
  (registry (CheckState_ topo w) = delete (channel_ w) (registry w) /\
   n_children topo <= n_received_ w).
Proof.
  destruct (Z.lt_ge_cases (n_received_ w) (n_children topo)) as [Hlt|Hge].
  { left. rewrite CheckState_counting by done. auto. }
  destruct (is_root topo) eqn:Hr.
  { right. rewrite CheckState_complete by auto. cbn. split; [done|lia]. }
  destruct (decide (n_received_ w = n_children topo)) as [E|NE].
  { left. rewrite CheckState_ready by done. cbn. auto. }
  right. rewrite CheckState_complete by (try right; lia). cbn. split; [done|lia].
Qed.

Lemma barrier_inv_Barrier (channel_num : Z) (w : World) :
  0 <= n_children topo ->
  (forall c, registry w !! c <> Some this) ->
  barrier_inv topo this channel_num (Barrier topo this channel_num w).
Proof.
  intros Hn Hfresh. rewrite Barrier_unfold.
  destruct (CheckState_fields (at_init_check channel_num w)) as (En & Ec & _).
  unfold barrier_inv. cbn. rewrite En, Ec. cbn.
  split; [done|]. split; [|split; [lia|]].
  - intros c Hc. rewrite lookup_insert_ne by done.
    destruct (CheckState_registry (at_init_check channel_num w))
      as [[-> _]|[-> _]]; cbn.
    + apply Hfresh.
    + rewrite lookup_delete. case_decide; [done|apply Hfresh].
  - right. rewrite lookup_insert_eq. split; [done|lia].
Qed.

Lemma barrier_inv_HandleMessage (channel_num : Z) (m : Message) (w w' : World) :
  0 <= n_children topo < INT_MAX ->
  barrier_inv topo this channel_num w ->
  registry w !! channel_num = Some this ->
  HandleMessage topo m w = Some w' ->
  barrier_inv topo this channel_num w' /\
  n_received_ w' = n_received_ w + 1.
Proof.
  unfold INT_MAX. intros Hn (Hch & Hfresh & Hb & Hreg) Hthis.
  destruct Hreg as [Hreg|[_ Hle]]; [congruence|].
  unfold HandleMessage. destruct (negb _); [discriminate|]. intros [= <-].
  set (w2 := set_n_received _ _).
  assert (n_received_ w2 = n_received_ w + 1) as E2.
  { subst w2. cbn. apply int_wrap_small.
    change (2 ^ 31) with 2147483648. lia. }
  assert (channel_ w2 = channel_num) as Ec2 by done.
  assert (registry w2 = registry w) as Er2 by done.
  destruct (CheckState_fields w2) as (En & Ec & _).
  unfold barrier_inv. rewrite En, Ec, E2, Ec2.
  split; [|done]. split; [done|].
  destruct (CheckState_registry w2) as [[-> Hcase]|[-> Hcase]];
    rewrite ?Er2, ?Ec2.
  - split; [done|]. split; [lia|]. right. split; [done|]. lia.
  - split; [|split; [lia|]].
    + intros c Hc. rewrite lookup_delete_ne by done. by apply Hfresh.
    + left. apply lookup_delete_eq.
Qed.

Lemma barrier_inv_Dispatch (channel_num : Z) (m : Message) (w w' : World) :
  0 <= n_children topo < INT_MAX ->
  barrier_inv topo this channel_num w ->
  Dispatch topo this m w = Some w' ->
  barrier_inv topo this channel_num w'.
Proof.
  intros Hn Hinv. unfold Dispatch.
  destruct (registry w !! msg_channel m) as [c|] eqn:Hc; [|discriminate].
  case_decide as Hthis; [|by intros [= <-]].
  subst c. intros H.
  destruct (decide (msg_channel m = channel_num)) as [E|NE].
  - rewrite E in Hc. by apply (barrier_inv_HandleMessage channel_num m w w').
  - destruct Hinv as (_ & Hfresh & _). by destruct (Hfresh _ NE).
Qed.

Lemma barrier_inv_deliver (channel_num : Z) (ms : list Message) :
  forall w w' : World,
  0 <= n_children topo < INT_MAX ->
  barrier_inv topo this channel_num w ->
  deliver topo this ms w = Some w' ->
  barrier_inv topo this channel_num w'.
Proof.
  induction ms as [|m ms IH]; intros w w' Hn Hinv; cbn [deliver].
  - by intros [= <-].
  - destruct (Dispatch topo this m w) as [w1|] eqn:D; [|discriminate].
    apply IH; [done|]. by apply (barrier_inv_Dispatch channel_num m w).
Qed.

(** C4: in every state a barrier can reach, from the call of [Barrier]
    through any sequence of delivered messages, the count is at most
    [n_children + 1]; once all children are counted, a message accepted on
    the channel comes from the parent, arrives at count [n_children] and is
    the one that takes the count to [n_children + 1]; above [n_children]
    the channel is unregistered and every further message for it is
    fatal. *)
Theorem n_received_bounded (channel_num : Z) (ms : list Message)
    (w0 w : World) :
  0 <= n_children topo < INT_MAX ->
  (forall c, registry w0 !! c <> Some this) ->
  deliver topo this ms (Barrier topo this channel_num w0) = Some w ->
  0 <= n_received_ w <= n_children topo + 1 /\
  (forall m w',
     msg_channel m = channel_num ->
     n_children topo <= n_received_ w ->
     Dispatch topo this m w = Some w' ->
     msg_peer m = parent topo /\
     n_received_ w = n_children topo /\
     n_received_ w' = n_children topo + 1) /\
  (n_children topo < n_received_ w ->
     registry w !! channel_num = None /\
     forall m, msg_channel m = channel_num -> Dispatch topo this m w = None).
Proof.
  intros Hn Hfresh D.
  assert (barrier_inv topo this channel_num w) as Hinv.
  { eapply barrier_inv_deliver; [exact Hn| |exact D].
    apply barrier_inv_Barrier; [lia|done]. }
  pose proof Hinv as (Hch & Hfr & Hb & Hreg).
  split; [done|]. split.
  - intros m w' Em Hge. unfold Dispatch. rewrite Em.
    destruct Hreg as [->|[Hthis Hle]]; [discriminate|].
    rewrite Hthis. rewrite decide_True by done. intros H.
    assert (n_received_ w = n_children topo) as E by lia.
    destruct (barrier_inv_HandleMessage channel_num m w w' Hn Hinv Hthis H)
      as (_ & E').
    split; [|split; [done|lia]].
    revert H. unfold HandleMessage, IsValidSender_.
    rewrite (proj2 (Z.eqb_eq _ _) E).
    destruct (Z.eqb_spec (msg_peer m) (parent topo)); [done|discriminate].
  - intros Hgt. destruct Hreg as [Hnone|[_ Hle]]; [|lia].
    split; [done|]. intros m Em. unfold Dispatch. by rewrite Em, Hnone.
Qed.

(** ** Completion reached from [HandleMessage] frees the id *)

Lemma CheckState_still_registered (w : World) :
  registry (CheckState_ topo w) !! channel_ w = Some this ->
  app (CheckState_ topo w) = app w.
Proof.
  destruct (Z.lt_ge_cases (n_received_ w) (n_children topo)) as [Hlt|Hge].
  { by rewrite CheckState_counting. }
  destruct (is_root topo) eqn:Hr.
  { rewrite CheckState_complete by auto. cbn. by rewrite lookup_delete_eq. }
  destruct (decide (n_received_ w = n_children topo)) as [E|NE].
  { by rewrite CheckState_ready. }
  rewrite CheckState_complete by (try right; lia). cbn.
  by rewrite lookup_delete_eq.
Qed.

(** On every process but a root without children, the thread stays
    blocked for as long as the channel is registered. *)
Lemma blocked_while_registered (channel_num : Z) (ms : list Message) :
  forall w w' : World,
  0 <= n_children topo < INT_MAX ->
  barrier_inv topo this channel_num w ->
  (registry w !! channel_num = Some this -> app w = Blocked) ->
  deliver topo this ms w = Some w' ->
  registry w' !! channel_num = Some this -> app w' = Blocked.
Proof.
  induction ms as [|m ms IH]; intros w w' Hn Hinv Hb; cbn [deliver].
  - by intros [= <-].
  - destruct (Dispatch topo this m w) as [w1|] eqn:D; [|discriminate].
    apply IH; [done|by apply (barrier_inv_Dispatch channel_num m w)|].
    revert D. unfold Dispatch.
    destruct (registry w !! msg_channel m) as [c|] eqn:Hc; [|discriminate].
    case_decide as Hthis; [|by intros [= <-]].
    subst c. destruct Hinv as (Hch & Hfresh & _).
    destruct (decide (msg_channel m = channel_num)) as [E|NE];
      [|by destruct (Hfresh _ NE)].
    rewrite E in Hc. unfold HandleMessage.
    destruct (negb _); [discriminate|]. intros [= <-] Hreg.
    rewrite CheckState_still_registered by (cbn; by rewrite Hch).
    cbn. by apply Hb.
Qed.

(** X5: the completion path that follows the registration: on every
    process but a root without children, once the thread has returned from
    [Barrier] the registry has no entry for the channel id. *)
Lemma returned_barrier_unregistered (channel_num : Z) (ms : list Message)
    (w0 w : World) :
  0 <= n_children topo < INT_MAX ->
  (forall c, registry w0 !! c <> Some this) ->
  ~ (is_root topo = true /\ n_children topo = 0) ->
  deliver topo this ms (Barrier topo this channel_num w0) = Some w ->
  app w = Returned ->
  registry w !! channel_num = None.
Proof.
  intros Hn Hfresh Hnot D Hret.
  assert (barrier_inv topo this channel_num (Barrier topo this channel_num w0))
    as Hinv0 by (apply barrier_inv_Barrier; [lia|done]).
  assert (barrier_inv topo this channel_num w) as (_ & _ & _ & Hreg)
    by (eapply barrier_inv_deliver; [exact Hn|exact Hinv0|exact D]).
  destruct Hreg as [Hnone|[Hthis _]]; [done|].
  assert (app w = Blocked) as Hb; [|congruence].
  eapply blocked_while_registered; [exact Hn|exact Hinv0| |exact D|exact Hthis].
  intros _. rewrite Barrier_unfold.
  destruct (Z.lt_ge_cases 0 (n_children topo)) as [Hpos|Hzero].
  - by rewrite CheckState_counting.
  - rewrite CheckState_ready; [done| |cbn; lia].
    destruct (is_root topo); [|done]. destruct Hnot. split; [done|lia].
Qed.

(** A root without children: the whole call, as one state. *)
Lemma Barrier_root_alone (channel_num : Z) (w : World) :
  is_root topo = true -> n_children topo = 0 ->
  Barrier topo this channel_num w =
  mkWorld (<[channel_num := this]> (delete channel_num (registry w)))
          channel_num 0 Signalled Returned
          (trace w ++ [EvConstruct; EvWriteFlush; EvTransactionInit channel_num;
                       EvTransactionDone; EvUnregister channel_num; EvCondDone;
                       EvRegister channel_num this; EvWait]).
Proof.
  intros Hr H0. rewrite Barrier_unfold.
  rewrite CheckState_complete by (cbn; auto; lia).
  rewrite H0.
  unfold Wait, DoneCondition_Wait, Register, DoneCondition_Done, emit,
    set_registry, set_app, set_cond, wake_calls.
  cbn. by rewrite <- !app_assoc.
Qed.

(** C5: in a group of one process (the root, without children) the
    completion check run by [Init] signals the condition, so [Wait] returns
    at once; the call sends no message and consumes none. *)
Theorem barrier_alone_returns_at_once (channel_num : Z) (w : World) :
  is_root topo = true -> n_children topo = 0 ->
  cond_ (Init topo channel_num (WriteFlush (Construct w))) = Signalled /\
  app (Barrier topo this channel_num w) = Returned /\
  calls_since w (Barrier topo this channel_num w) =
    [EvConstruct; EvWriteFlush; EvTransactionInit channel_num;
     EvTransactionDone; EvUnregister channel_num; EvCondDone;
     EvRegister channel_num this; EvWait] /\
  (forall m, EvSend m ∉ calls_since w (Barrier topo this channel_num w)) /\
  (forall m, EvDelete m ∉ calls_since w (Barrier topo this channel_num w)).
Proof.
  intros Hr H0. rewrite (Barrier_root_alone channel_num w Hr H0).
  erewrite calls_since_app by (cbn [trace]; reflexivity).
  split.
  { unfold Init. by rewrite CheckState_complete by (cbn; auto; lia). }
  split; [done|]. split; [done|].
  split; intros m H; rewrite !elem_of_cons, elem_of_nil in H;
    repeat (destruct H as [H|H]; [discriminate|]); done.
Qed.

End BarrierFacts.

Lemma completion_branch_calls_witness :
  calls_since (waiting 2) (CheckState_ (tree4 0) (waiting 2)) =
    [EvTransactionDone; EvUnregister 10] ++
    ((fun i => EvSend (mkMessage (child (tree4 0) i) 10 0)) <$> seqZ 0 2) ++
    [EvCondDone] /\
  registry (CheckState_ (tree4 0) (waiting 2)) = delete 10 (registry (waiting 2)) /\
  cond_ (CheckState_ (tree4 0) (waiting 2)) = Signalled /\
  (app (waiting 2) = Blocked -> app (CheckState_ (tree4 0) (waiting 2)) = Returned) /\
  (forall m, msg_channel m = 10 ->
     Dispatch (tree4 0) 7%nat m (CheckState_ (tree4 0) (waiting 2)) = None).
Proof.
  apply (completion_branch_calls (tree4 0) 7%nat (waiting 2)).
  - cbn. lia.
  - left. reflexivity.
Defined.

Lemma done_signalled_last_witness :
  exists w3 : World,
    CheckState_ (tree4 1) (waiting 2) = DoneCondition_Done w3 /\
    cond_ w3 = Pending /\ app w3 = Blocked /\
    registry w3 !! 10 = None /\
    EvUnregister 10 ∈ calls_since (waiting 2) w3 /\
    (forall i, 0 <= i < 1 ->
       EvSend (mkMessage (child (tree4 1) i) 10 0) ∈ calls_since (waiting 2) w3) /\
    EvCondDone ∉ calls_since (waiting 2) w3.
Proof.
  apply (done_signalled_last (tree4 1) (waiting 2)).
  - cbn. lia.
  - right. cbn. lia.
Defined.

Lemma ready_sent_to_parent_witness :
  calls_since (waiting 1) (CheckState_ (tree4 1) (waiting 1)) =
    [EvSend (mkMessage 0 10 0)] /\
  registry (CheckState_ (tree4 1) (waiting 1)) = registry (waiting 1) /\
  cond_ (CheckState_ (tree4 1) (waiting 1)) = Pending /\
  app (CheckState_ (tree4 1) (waiting 1)) = Blocked /\
  n_received_ (CheckState_ (tree4 1) (waiting 1)) = 1.
Proof.
  apply (proj1 (ready_sent_to_parent (tree4 1) (waiting 1) eq_refl)).
  reflexivity.
Defined.

Lemma fatal_iff_unexpected_sender_witness :
  (HandleMessage (tree4 0) (mkMessage 3 10 0) (waiting 1) = None <->
   ~ expected_sender (tree4 0) 1 3) /\
  HandleMessage (tree4 1) (mkMessage 2 10 0) (waiting 1) = None.
Proof.
  split.
  - apply (proj1 (fatal_iff_unexpected_sender (tree4 0) (waiting 1)
                    (mkMessage 3 10 0))).
    cbn. lia.
  - apply (proj1 (proj2 (fatal_iff_unexpected_sender (tree4 1) (waiting 1)
                           (mkMessage 2 10 0)))).
    + intros (i & Hi & E). cbn in Hi, E.
      assert (i = 0) as -> by lia. discriminate.
    + cbn. lia.
Defined.

Lemma flush_before_negotiation_witness :
  exists w' : World,
    deliver (tree4 1) 7%nat [mkMessage 3 10 0; mkMessage 0 10 0]
            (Barrier (tree4 1) 7%nat 10 idle) = Some w' /\
    (calls_since idle w' !! 0%nat = Some EvConstruct /\
     calls_since idle w' !! 1%nat = Some EvWriteFlush /\
     registry (WriteFlush (Construct idle)) = registry idle /\
     before EvWriteFlush (EvRegister 10 7%nat) (calls_since idle w') /\
     (forall (i : nat) (e : Event),
        calls_since idle w' !! i = Some e ->
        (exists c h, e = EvRegister c h) \/ (exists m, e = EvSend m) ->
        (1 < i)%nat)).
Proof.
  eexists. split.
  - vm_compute. reflexivity.
  - apply (flush_before_negotiation (tree4 1) 7%nat 10
             [mkMessage 3 10 0; mkMessage 0 10 0] idle).
    vm_compute. reflexivity.
Defined.

Lemma barrier_alone_returns_at_once_witness :
  cond_ (Init alone 10 (WriteFlush (Construct idle))) = Signalled /\
  app (Barrier alone 7%nat 10 idle) = Returned /\
  calls_since idle (Barrier alone 7%nat 10 idle) =
    [EvConstruct; EvWriteFlush; EvTransactionInit 10;
     EvTransactionDone; EvUnregister 10; EvCondDone;
     EvRegister 10 7%nat; EvWait] /\
  (forall m, EvSend m ∉ calls_since idle (Barrier alone 7%nat 10 idle)) /\
  (forall m, EvDelete m ∉ calls_since idle (Barrier alone 7%nat 10 idle)).
Proof.
  apply (barrier_alone_returns_at_once alone 7%nat 10 idle); reflexivity.
Defined.

(** C2, as stated, fails: on a group of one process the flush comes after
    the construction, and [Init] runs (and completes) before the channel is
    registered. *)
Lemma init_runs_before_register :
  calls_since idle (Barrier alone 7%nat 10 idle) =
    [EvConstruct; EvWriteFlush; EvTransactionInit 10;
     EvTransactionDone; EvUnregister 10; EvCondDone;
     EvRegister 10 7%nat; EvWait] /\
  ~ before EvWriteFlush EvConstruct
      (calls_since idle (Barrier alone 7%nat 10 idle)) /\
  ~ before (EvRegister 10 7%nat) (EvTransactionInit 10)
      (calls_since idle (Barrier alone 7%nat 10 idle)).
Proof.
  assert (calls_since idle (Barrier alone 7%nat 10 idle) =
    [EvConstruct; EvWriteFlush; EvTransactionInit 10;
     EvTransactionDone; EvUnregister 10; EvCondDone;
     EvRegister 10 7%nat; EvWait]) as E by reflexivity.
  rewrite E. split; [reflexivity|].
  split; intros (i & j & Hlt & Hi & Hj);
    destruct i as [|[|[|[|[|[|[|[|i]]]]]]]]; cbn in Hi; try discriminate Hi;
    destruct j as [|[|[|[|[|[|[|[|j]]]]]]]]; cbn in Hj; try discriminate Hj;
    lia.
Qed.

(** C1 fails on the code for a group of one process: [Barrier(10)] has
    returned and the registry still maps 10 to the transient channel. *)
Theorem barrier_alone_leaves_channel_registered :
  app (Barrier alone 7%nat 10 idle) = Returned /\
  registry (Barrier alone 7%nat 10 idle) !! 10 = Some 7%nat.
Proof. split; reflexivity. Qed.

Lemma n_received_bounded_witness :
  exists w : World,
    deliver (tree4 1) 7%nat [mkMessage 3 10 0; mkMessage 0 10 0]
            (Barrier (tree4 1) 7%nat 10 idle) = Some w /\
    (0 <= n_received_ w <= n_children (tree4 1) + 1 /\
     (forall m w',
        msg_channel m = 10 ->
        n_children (tree4 1) <= n_received_ w ->
        Dispatch (tree4 1) 7%nat m w = Some w' ->
        msg_peer m = parent (tree4 1) /\
        n_received_ w = n_children (tree4 1) /\
        n_received_ w' = n_children (tree4 1) + 1) /\
     (n_children (tree4 1) < n_received_ w ->
        registry w !! 10 = None /\
        forall m, msg_channel m = 10 -> Dispatch (tree4 1) 7%nat m w = None)).
Proof.
  eexists. split.
  - vm_compute. reflexivity.
  - apply (n_received_bounded (tree4 1) 7%nat 10
             [mkMessage 3 10 0; mkMessage 0 10 0] idle).
    + unfold INT_MAX. cbn. lia.
    + intros c. unfold idle. cbn [registry]. rewrite lookup_empty. discriminate.
    + vm_compute. reflexivity.
Defined.

(** * Whole runs of the barrier *)

Section BarrierRuns.

Variable topo : Topology.
Variable this : ChannelRef.
Variable channel_num : Z.

Hypothesis Hk : 0 <= n_children topo < INT_MAX.

(** Reads the fields of a state built by the operations, without
    unfolding the operations where they stand. *)
Ltac world_fields :=
  cbn [registry channel_ n_received_ cond_ app trace
       Wait DoneCondition_Wait Register Unregister DoneCondition_Done
       DoMessage_ Transaction_Done Transaction_Init WriteFlush Construct
       at_init_check emit set_registry set_channel set_n_received
       set_cond set_app].

Lemma sends_of_app (l1 l2 : list Event) :
  sends_of (l1 ++ l2) = sends_of l1 ++ sends_of l2.
Proof. apply omap_app. Qed.

Lemma sends_of_wake_calls (ch : Z) :
  sends_of (wake_calls topo 0 (n_children topo) ch) = wake_messages topo ch.
Proof.
  unfold wake_calls, wake_messages, sends_of.
  induction (seqZ 0 (n_children topo)) as [|i l IH]; [done|].
  cbn. by rewrite IH.
Qed.

Lemma completed_true (n : Z) :
  completed topo n = true <->
  n_children topo <= n /\ (is_root topo = true \/ n_children topo < n).
Proof.
  unfold completed. rewrite andb_true_iff, orb_true_iff, Z.leb_le, Z.ltb_lt.
  done.
Qed.

(** The check, by the completion test on the count. *)
Lemma CheckState_by_completed (w : World) :
  if completed topo (n_received_ w)
  then CheckState_ topo w =
       DoneCondition_Done
         (mkWorld (delete (channel_ w) (registry w)) (channel_ w)
            (n_received_ w) (cond_ w) (app w)
            (trace w ++ [EvTransactionDone; EvUnregister (channel_ w)] ++
             wake_calls topo 0 (n_children topo) (channel_ w)))
  else (CheckState_ topo w = w /\ n_received_ w < n_children topo) \/
       (CheckState_ topo w = DoMessage_ (parent topo) w /\
        is_root topo = false /\ n_received_ w = n_children topo).
Proof.
  destruct (completed topo (n_received_ w)) eqn:E.
  - apply completed_true in E as [Hle Hc]. by apply CheckState_complete.
  - destruct (Z.lt_ge_cases (n_received_ w) (n_children topo)) as [Hlt|Hge].
    { left. split; [by apply CheckState_counting|done]. }
    right. destruct (is_root topo) eqn:Hr.
    { assert (completed topo (n_received_ w) = true) as E'
        by (apply completed_true; rewrite Hr; auto).
      congruence. }
    destruct (decide (n_received_ w = n_children topo)) as [En|NE].
    { split; [by apply CheckState_ready|done]. }
    assert (completed topo (n_received_ w) = true) as E'
      by (apply completed_true; split; [done|right; lia]).
    congruence.
Qed.

Lemma sent_by_counting (n : Z) :
  n < n_children topo -> sent_by topo channel_num n = [].
Proof.
  intros H. unfold sent_by, completed.
  destruct (Z.leb_spec (n_children topo) n); [lia|].
  by rewrite andb_false_r.
Qed.

Lemma run_inv_Barrier (w0 : World) :
  (forall c, registry w0 !! c <> Some this) ->
  run_inv topo this channel_num w0 (Barrier topo this channel_num w0).
Proof.
  intros Hfresh.
  pose proof (barrier_inv_Barrier topo this channel_num w0 (proj1 Hk) Hfresh)
    as Hinv.
  unfold run_inv. split; [done|]. clear Hinv.
  rewrite Barrier_unfold.
  pose proof (CheckState_by_completed (at_init_check channel_num w0)) as HC.
  change (n_received_ (at_init_check channel_num w0)) with 0 in HC.
  destruct (completed topo 0) eqn:E0.
  - rewrite HC.
    world_fields. rewrite E0.
    split; [lia|]. split; [by rewrite lookup_insert_eq|]. split; [done|].
    eexists. split; [by rewrite <- !app_assoc|].
    rewrite !sends_of_app, sends_of_wake_calls.
    unfold sent_by. rewrite E0.
    apply completed_true in E0 as [Hle [Hr|Hlt]]; [|lia].
    rewrite Hr. cbn. by rewrite app_nil_r.
  - destruct HC as [[-> Hlt]|(-> & Hr & Hn)];
      world_fields; rewrite E0.
    + split; [lia|]. split; [by rewrite lookup_insert_eq|]. split; [done|].
      eexists. split; [by rewrite <- !app_assoc|].
      cbn. by rewrite sent_by_counting.
    + split; [lia|]. split; [by rewrite lookup_insert_eq|]. split; [done|].
      eexists. split; [by rewrite <- !app_assoc|].
      cbn. unfold sent_by. rewrite E0, Hr.
      destruct (Z.leb_spec (n_children topo) 0); [|lia].
      cbn. done.
Qed.

Lemma completed_counting (n : Z) :
  n < n_children topo -> completed topo n = false.
Proof.
  intros H. unfold completed.
  by destruct (Z.leb_spec (n_children topo) n); [lia|].
Qed.

Lemma sent_by_ready :
  is_root topo = false ->
  sent_by topo channel_num (n_children topo) = [ready_message topo channel_num].
Proof.
  intros Hr. unfold sent_by, completed. rewrite Hr, Z.leb_refl, Z.ltb_irrefl.
  done.
Qed.

Lemma sent_by_woken (n : Z) :
  is_root topo = false -> n_children topo < n ->
  sent_by topo channel_num n =
  ready_message topo channel_num :: wake_messages topo channel_num.
Proof.
  intros Hr Hn. unfold sent_by, completed. rewrite Hr.
  destruct (Z.leb_spec (n_children topo) n); [|lia].
  by destruct (Z.ltb_spec (n_children topo) n); [|lia].
Qed.

Lemma sent_by_root_done (n : Z) :
  is_root topo = true -> n_children topo <= n ->
  sent_by topo channel_num n = wake_messages topo channel_num.
Proof.
  intros Hr Hn. unfold sent_by, completed. rewrite Hr.
  by destruct (Z.leb_spec (n_children topo) n); [|lia].
Qed.

Lemma wake_messages_none (ch : Z) :
  n_children topo = 0 -> wake_messages topo ch = [].
Proof. intros E. unfold wake_messages. by rewrite E. Qed.

Lemma run_inv_HandleMessage (m : Message) (w0 w w' : World) :
  run_inv topo this channel_num w0 w ->
  registry w !! channel_num = Some this ->
  HandleMessage topo m w = Some w' ->
  run_inv topo this channel_num w0 w'.
Proof.
  intros (Hinv & Hroot & Hreg3 & Happ & (l & El & Es)) Hthis H.
  destruct (barrier_inv_HandleMessage topo this channel_num m w w'
              Hk Hinv Hthis H) as (Hinv' & En').
  destruct Hinv as (Hch & _ & Hb & Hreg).
  assert (n_received_ w <= n_children topo) as Hle
    by (destruct Hreg as [Hnone|[_ ?]]; [congruence|done]).
  revert H En' Hinv'. unfold HandleMessage.
  destruct (negb _); [discriminate|]. intros [= <-].
  set (w2 := set_n_received _ _).
  assert (channel_ w2 = channel_num) as Ec2 by done.
  assert (registry w2 = registry w) as Er2 by done.
  assert (app w2 = app w) as Ea2 by done.
  assert (cond_ w2 = cond_ w) as Eo2 by done.
  assert (trace w2 = trace w0 ++ l ++ [EvDelete m]) as Et2
    by (subst w2; world_fields; by rewrite El, <- app_assoc).
  rewrite (proj1 (CheckState_fields topo w2)). intros En2 Hinv'.
  pose proof (CheckState_by_completed w2) as HC.
  rewrite En2, Ec2, Er2, Ea2, Eo2, Et2 in HC.
  unfold run_inv. rewrite (proj1 (CheckState_fields topo w2)), En2.
  split; [done|].
  destruct (completed topo (n_received_ w + 1)) eqn:E1.
  - rewrite HC. world_fields. rewrite lookup_delete_eq.
    split; [discriminate|]. split; [discriminate|]. split.
    { by destruct (completed topo (n_received_ w)), Happ as [-> _]. }
    eexists. split; [by rewrite <- !app_assoc|].
    rewrite !sends_of_app, sends_of_wake_calls, Es.
    change (sends_of [EvDelete m]) with (@nil Message).
    change (sends_of [EvTransactionDone; EvUnregister channel_num])
      with (@nil Message).
    change (sends_of [EvCondDone]) with (@nil Message).
    rewrite !app_nil_r. cbn [app].
    apply completed_true in E1 as [Hle1 Hc].
    destruct (is_root topo) eqn:Hr.
    + rewrite (sent_by_root_done (n_received_ w + 1)) by (try done; lia).
      destruct (Hroot eq_refl Hthis) as [Hlt|H0].
      * by rewrite sent_by_counting.
      * rewrite (wake_messages_none _ H0), app_nil_r.
        rewrite sent_by_root_done by (try done; lia).
        by apply wake_messages_none.
    + destruct Hc as [?|Hlt]; [done|].
      assert (n_received_ w = n_children topo) as -> by lia.
      rewrite sent_by_ready by done.
      by rewrite sent_by_woken by (try done; lia).
  - assert (completed topo (n_received_ w) = false) as E0.
    { destruct (completed topo (n_received_ w)) eqn:E0; [|done].
      apply completed_true in E0 as [? Hc].
      assert (completed topo (n_received_ w + 1) = true) as E1'
        by (apply completed_true; split; [lia|destruct Hc; [by left|right; lia]]).
      congruence. }
    rewrite E0 in Happ.
    destruct HC as [[-> Hlt]|(-> & Hr & Hn)]; world_fields; rewrite Er2.
    + split; [by left|]. split; [done|]. split; [done|].
      eexists. split; [by rewrite Et2|].
      rewrite sends_of_app, Es.
      change (sends_of [EvDelete m]) with (@nil Message).
      rewrite app_nil_r, !sent_by_counting by lia. done.
    + split; [congruence|]. split; [done|]. split; [done|].
      eexists. split; [by rewrite Et2, <- !app_assoc|].
      rewrite !sends_of_app, Es.
      change (sends_of [EvDelete m]) with (@nil Message).
      rewrite sent_by_counting by lia. rewrite Hn, sent_by_ready by done.
      by rewrite Ec2.
Qed.

Lemma run_inv_Dispatch (m : Message) (w0 w w' : World) :
  run_inv topo this channel_num w0 w ->
  Dispatch topo this m w = Some w' ->
  run_inv topo this channel_num w0 w'.
Proof.
  intros Hinv. unfold Dispatch.
  destruct (registry w !! msg_channel m) as [c|] eqn:Hc; [|discriminate].
  case_decide as Hthis; [|by intros [= <-]].
  subst c. intros H.
  destruct (decide (msg_channel m = channel_num)) as [E|NE].
  - rewrite E in Hc. by apply (run_inv_HandleMessage m w0 w w').
  - destruct Hinv as ((_ & Hfresh & _) & _). by destruct (Hfresh _ NE).
Qed.

Lemma run_inv_deliver (ms : list Message) : forall w0 w w' : World,
  run_inv topo this channel_num w0 w ->
  deliver topo this ms w = Some w' ->
  run_inv topo this channel_num w0 w'.
Proof.
  induction ms as [|m ms IH]; intros w0 w w' Hinv; cbn [deliver].
  - by intros [= <-].
  - destruct (Dispatch topo this m w) as [w1|] eqn:D; [|discriminate].
    apply IH. by apply (run_inv_Dispatch m w0 w).
Qed.

(** Every state of a run satisfies the run invariant. *)
Lemma run_inv_reached (ms : list Message) (w0 w : World) :
  (forall c, registry w0 !! c <> Some this) ->
  deliver topo this ms (Barrier topo this channel_num w0) = Some w ->
  run_inv topo this channel_num w0 w.
Proof.
  intros Hfresh D. eapply run_inv_deliver; [|exact D].
  by apply run_inv_Barrier.
Qed.

Lemma calls_of_run (w0 w : World) :
  run_inv topo this channel_num w0 w ->
  sends_of (calls_since w0 w) = sent_by topo channel_num (n_received_ w).
Proof.
  intros (_ & _ & _ & _ & (l & El & Es)).
  by rewrite (calls_since_app w0 w l El).
Qed.

(** Messages from children, delivered while the count stays within
    [n_children], are all accepted and counted. *)
Lemma deliver_children (w0 : World) (ms : list Message) : forall w : World,
  run_inv topo this channel_num w0 w ->
  n_received_ w + Z.of_nat (length ms) <= n_children topo ->
  Forall (fun m => msg_channel m = channel_num /\
                   is_a_child topo (msg_peer m)) ms ->
  exists w',
    deliver topo this ms w = Some w' /\
    n_received_ w' = n_received_ w + Z.of_nat (length ms) /\
    run_inv topo this channel_num w0 w'.
Proof.
  induction ms as [|m ms IH]; intros w Hrun Hlen HF.
  - exists w. cbn. split; [done|]. split; [lia|done].
  - apply Forall_cons in HF as [[Hc Hchild] HF]. cbn [length] in Hlen.
    pose proof Hrun as (Hinv & _ & Hreg & _).
    assert (registry w !! channel_num = Some this) as Hthis
      by (apply Hreg, completed_counting; lia).
    assert (exists w1, HandleMessage topo m w = Some w1) as [w1 H1].
    { unfold HandleMessage, IsValidSender_.
      destruct (Z.eqb_spec (n_received_ w) (n_children topo)); [lia|].
      rewrite (proj2 (is_child_search topo (msg_peer m)) Hchild).
      by eexists. }
    destruct (barrier_inv_HandleMessage topo this channel_num m w w1
                Hk Hinv Hthis H1) as (_ & En1).
    pose proof (run_inv_HandleMessage m w0 w w1 Hrun Hthis H1) as Hrun1.
    destruct (IH w1 Hrun1) as (w' & D & En & Hrun'); [lia|done|].
    exists w'. cbn [deliver]. unfold Dispatch.
    rewrite Hc, Hthis, decide_True, H1 by done.
    split; [done|]. split; [cbn [length]; lia|done].
Qed.

(** X1: in every state of a run, the caller of [Barrier] has returned
    exactly when the completion condition holds of the count (all children
    counted on the root, one more message on any other process); until
    then it is blocked; and it has returned exactly when the condition has
    been signalled. *)
Theorem returned_iff_completed (ms : list Message) (w0 w : World) :
  (forall c, registry w0 !! c <> Some this) ->
  deliver topo this ms (Barrier topo this channel_num w0) = Some w ->
  (app w = Returned <->
   n_children topo <= n_received_ w /\
   (is_root topo = true \/ n_children topo < n_received_ w)) /\
  (app w = Blocked <->
   ~ (n_children topo <= n_received_ w /\
      (is_root topo = true \/ n_children topo < n_received_ w))) /\
  (cond_ w = Signalled <-> app w = Returned).
Proof.
  intros Hfresh D.
  destruct (run_inv_reached ms w0 w Hfresh D) as (_ & _ & _ & Happ & _).
  rewrite <- completed_true.
  destruct (completed topo (n_received_ w)); destruct Happ as [-> ->];
    repeat split; try done; intros H; try discriminate; by destruct H.
Qed.

(** X2: in every state of a run, the messages the process has sent since
    the call are determined by its count: none while it collects, the
    ready message for the parent (not on the root) from the moment all
    children are counted, and after it the wake messages for the children
    in index order once the completion condition holds.  So a process sends
    at most [n_children + 1] messages, each of size 0, on the barrier's
    channel, to its parent or to one of its children. *)
Theorem messages_sent_by_count (ms : list Message) (w0 w : World) :
  (forall c, registry w0 !! c <> Some this) ->
  deliver topo this ms (Barrier topo this channel_num w0) = Some w ->
  sends_of (calls_since w0 w) = sent_by topo channel_num (n_received_ w) /\
  (length (sends_of (calls_since w0 w)) <= Z.to_nat (n_children topo) + 1)%nat /\
  Forall (fun m => msg_channel m = channel_num /\ msg_size m = 0 /\
                   (msg_peer m = parent topo \/ is_a_child topo (msg_peer m)))
         (sends_of (calls_since w0 w)).
Proof.
  intros Hfresh D.
  rewrite (calls_of_run w0 w (run_inv_reached ms w0 w Hfresh D)).
  split; [done|]. unfold sent_by. split.
  - rewrite length_app.
    assert (length (wake_messages topo channel_num) = Z.to_nat (n_children topo))
      as Hw by (unfold wake_messages; by rewrite length_fmap, length_seqZ).
    destruct (negb (is_root topo) && _), (completed topo _); cbn [length];
      lia.
  - apply Forall_app. split.
    + destruct (negb (is_root topo) && _); [|by apply Forall_nil].
      apply Forall_singleton. cbn. auto.
    + destruct (completed topo _); [|by apply Forall_nil].
      apply Forall_forall. intros m Hm. unfold wake_messages in Hm.
      apply list_elem_of_fmap in Hm as (i & -> & Hi).
      apply elem_of_seqZ in Hi. cbn. repeat split. right.
      exists i. split; [lia|done].
Qed.

(** X3: on the root of a tree with children, [n_children] messages from
    children on the barrier's channel, in any order and whoever of the
    children sent them, are all accepted; after the last one [Barrier] has
    returned, the channel is unregistered, and the messages sent are one
    wake message per child.  After any shorter sequence the caller is
    still blocked and nothing has been sent. *)
Theorem root_returns_after_children (ms : list Message) (w0 : World) :
  is_root topo = true -> 0 < n_children topo ->
  (forall c, registry w0 !! c <> Some this) ->
  Z.of_nat (length ms) = n_children topo ->
  Forall (fun m => msg_channel m = channel_num /\
                   is_a_child topo (msg_peer m)) ms ->
  (exists w,
     deliver topo this ms (Barrier topo this channel_num w0) = Some w /\
     app w = Returned /\
     registry w !! channel_num = None /\
     sends_of (calls_since w0 w) = wake_messages topo channel_num) /\
  (forall ms1 ms2, ms = ms1 ++ ms2 -> ms2 <> [] ->
     exists w1,
       deliver topo this ms1 (Barrier topo this channel_num w0) = Some w1 /\
       app w1 = Blocked /\
       sends_of (calls_since w0 w1) = []).
Proof.
  intros Hr Hpos Hfresh Hlen HF.
  pose proof (run_inv_Barrier w0 Hfresh) as Hrun0.
  assert (n_received_ (Barrier topo this channel_num w0) = 0) as En0.
  { rewrite Barrier_unfold. world_fields.
    by rewrite (proj1 (CheckState_fields topo _)). }
  split.
  - destruct (deliver_children w0 ms _ Hrun0) as (w & D & En & Hrun);
      [lia|done|].
    exists w. split; [done|].
    rewrite (calls_of_run w0 w Hrun).
    destruct Hrun as ((_ & _ & _ & Hreg) & Hroot & _ & Happ & _).
    assert (completed topo (n_received_ w) = true) as E
      by (apply completed_true; split; [lia|by left]).
    rewrite E in Happ. split; [apply Happ|]. split.
    + destruct Hreg as [Hnone|[Hthis _]]; [done|].
      destruct (Hroot Hr Hthis); lia.
    + apply sent_by_root_done; [done|lia].
  - intros ms1 ms2 -> Hne.
    apply Forall_app in HF as [HF1 _]. rewrite length_app in Hlen.
    assert (0 < length ms2)%nat by (destruct ms2; [done|cbn; lia]).
    destruct (deliver_children w0 ms1 _ Hrun0) as (w1 & D & En & Hrun);
      [lia|done|].
    exists w1. split; [done|].
    rewrite (calls_of_run w0 w1 Hrun).
    destruct Hrun as (_ & _ & _ & Happ & _).
    rewrite completed_counting in Happ by lia.
    split; [apply Happ|]. apply sent_by_counting. lia.
Qed.

(** X4: on a process that is not the root, [n_children] messages from
    children (none on a leaf) are all accepted and leave the caller
    blocked, with the ready message for the parent as the only message
    sent; a message from the parent is then accepted, and after it
    [Barrier] has returned, the channel is unregistered, and the wake
    messages for the children have been sent after the ready message. *)
Theorem inner_returns_after_parent (ms : list Message) (pm : Message)
    (w0 : World) :
  is_root topo = false ->
  (forall c, registry w0 !! c <> Some this) ->
  Z.of_nat (length ms) = n_children topo ->
  Forall (fun m => msg_channel m = channel_num /\
                   is_a_child topo (msg_peer m)) ms ->
  msg_channel pm = channel_num -> msg_peer pm = parent topo ->
  exists w1 w2,
    deliver topo this ms (Barrier topo this channel_num w0) = Some w1 /\
    app w1 = Blocked /\
    sends_of (calls_since w0 w1) = [ready_message topo channel_num] /\
    Dispatch topo this pm w1 = Some w2 /\
    app w2 = Returned /\
    registry w2 !! channel_num = None /\
    sends_of (calls_since w0 w2) =
      ready_message topo channel_num :: wake_messages topo channel_num.
Proof.
  intros Hr Hfresh Hlen HF Hpc Hpp.
  pose proof (run_inv_Barrier w0 Hfresh) as Hrun0.
  assert (n_received_ (Barrier topo this channel_num w0) = 0) as En0.
  { rewrite Barrier_unfold. world_fields.
    by rewrite (proj1 (CheckState_fields topo _)). }
  destruct (deliver_children w0 ms _ Hrun0) as (w1 & D & En & Hrun1);
    [lia|done|].
  assert (n_received_ w1 = n_children topo) as En1 by lia.
  assert (completed topo (n_received_ w1) = false) as E1.
  { rewrite En1. unfold completed. by rewrite Hr, Z.ltb_irrefl, andb_false_r. }
  pose proof Hrun1 as (Hinv1 & _ & Hreg1 & Happ1 & _).
  specialize (Hreg1 E1). rewrite E1 in Happ1.
  assert (exists w2, HandleMessage topo pm w1 = Some w2) as [w2 H2].
  { unfold HandleMessage, IsValidSender_.
    rewrite (proj2 (Z.eqb_eq _ _) En1), (proj2 (Z.eqb_eq _ _) Hpp).
    by eexists. }
  destruct (barrier_inv_HandleMessage topo this channel_num pm w1 w2
              Hk Hinv1 Hreg1 H2) as (_ & En2).
  pose proof (run_inv_HandleMessage pm w0 w1 w2 Hrun1 Hreg1 H2) as Hrun2.
  exists w1, w2. split; [done|]. split; [apply Happ1|].
  rewrite (calls_of_run w0 w1 Hrun1), (calls_of_run w0 w2 Hrun2).
  split; [rewrite En1; by apply sent_by_ready|].
  split; [unfold Dispatch; by rewrite Hpc, Hreg1, decide_True|].
  destruct Hrun2 as ((_ & _ & _ & Hreg2) & _ & _ & Happ2 & _).
  assert (completed topo (n_received_ w2) = true) as E2
    by (apply completed_true; split; [lia|right; lia]).
  rewrite E2 in Happ2. split; [apply Happ2|]. split.
  - destruct Hreg2 as [Hnone|[_ ?]]; [done|lia].
  - apply sent_by_woken; [done|lia].
Qed.

End BarrierRuns.


Lemma tree4_bounds (rank : Z) : 0 <= n_children (tree4 rank) < INT_MAX.
Proof.
  unfold INT_MAX, tree4.
  destruct (rank =? 0); [cbn; lia|].
  destruct (rank =? 1); [cbn; lia|].
  destruct (rank =? 2); cbn; lia.
Qed.

Lemma idle_fresh (c : Z) : registry idle !! c <> Some 7%nat.
Proof. unfold idle. cbn [registry]. rewrite lookup_empty. discriminate. Qed.

Lemma returned_iff_completed_witness :
  exists w : World,
    deliver (tree4 1) 7%nat [mkMessage 3 10 0]
            (Barrier (tree4 1) 7%nat 10 idle) = Some w /\
    ((app w = Returned <->
      n_children (tree4 1) <= n_received_ w /\
      (is_root (tree4 1) = true \/ n_children (tree4 1) < n_received_ w)) /\
     (app w = Blocked <->
      ~ (n_children (tree4 1) <= n_received_ w /\
         (is_root (tree4 1) = true \/ n_children (tree4 1) < n_received_ w))) /\
     (cond_ w = Signalled <-> app w = Returned)).
Proof.
  eexists. split.
  - vm_compute. reflexivity.
  - apply (returned_iff_completed (tree4 1) 7%nat 10 (tree4_bounds 1)
             [mkMessage 3 10 0] idle).
    + exact idle_fresh.
    + vm_compute. reflexivity.
Defined.

Lemma messages_sent_by_count_witness :
  exists w : World,
    deliver (tree4 1) 7%nat [mkMessage 3 10 0; mkMessage 0 10 0]
            (Barrier (tree4 1) 7%nat 10 idle) = Some w /\
    (sends_of (calls_since idle w) = sent_by (tree4 1) 10 (n_received_ w) /\
     (length (sends_of (calls_since idle w))
      <= Z.to_nat (n_children (tree4 1)) + 1)%nat /\
     Forall (fun m => msg_channel m = 10 /\ msg_size m = 0 /\
                      (msg_peer m = parent (tree4 1) \/
                       is_a_child (tree4 1) (msg_peer m)))
            (sends_of (calls_since idle w))).
Proof.
  eexists. split.
  - vm_compute. reflexivity.
  - apply (messages_sent_by_count (tree4 1) 7%nat 10 (tree4_bounds 1)
             [mkMessage 3 10 0; mkMessage 0 10 0] idle).
    + exact idle_fresh.
    + vm_compute. reflexivity.
Defined.

Lemma root_returns_after_children_witness :
  (exists w,
     deliver (tree4 0) 7%nat [mkMessage 2 10 0; mkMessage 1 10 0]
             (Barrier (tree4 0) 7%nat 10 idle) = Some w /\
     app w = Returned /\
     registry w !! 10 = None /\
     sends_of (calls_since idle w) = wake_messages (tree4 0) 10) /\
  (forall ms1 ms2,
     [mkMessage 2 10 0; mkMessage 1 10 0] = ms1 ++ ms2 -> ms2 <> [] ->
     exists w1,
       deliver (tree4 0) 7%nat ms1 (Barrier (tree4 0) 7%nat 10 idle) = Some w1 /\
       app w1 = Blocked /\
       sends_of (calls_since idle w1) = []).
Proof.
  apply (root_returns_after_children (tree4 0) 7%nat 10 (tree4_bounds 0)
           [mkMessage 2 10 0; mkMessage 1 10 0] idle).
  - reflexivity.
  - cbn. lia.
  - exact idle_fresh.
  - reflexivity.
  - apply Forall_cons. split.
    { split; [reflexivity|]. exists 1. split; [cbn; lia|reflexivity]. }
    apply Forall_cons. split; [|by apply Forall_nil].
    split; [reflexivity|]. exists 0. split; [cbn; lia|reflexivity].
Defined.

Lemma inner_returns_after_parent_witness :
  exists w1 w2,
    deliver (tree4 1) 7%nat [mkMessage 3 10 0]
            (Barrier (tree4 1) 7%nat 10 idle) = Some w1 /\
    app w1 = Blocked /\
    sends_of (calls_since idle w1) = [ready_message (tree4 1) 10] /\
    Dispatch (tree4 1) 7%nat (mkMessage 0 10 0) w1 = Some w2 /\
    app w2 = Returned /\
    registry w2 !! 10 = None /\
    sends_of (calls_since idle w2) =
      ready_message (tree4 1) 10 :: wake_messages (tree4 1) 10.
Proof.
  apply (inner_returns_after_parent (tree4 1) 7%nat 10 (tree4_bounds 1)
           [mkMessage 3 10 0] (mkMessage 0 10 0) idle).
  - reflexivity.
  - exact idle_fresh.
  - reflexivity.
  - apply Forall_cons. split; [|by apply Forall_nil].
    split; [reflexivity|]. exists 0. split; [cbn; lia|reflexivity].
  - reflexivity.
  - reflexivity.
Defined.

Lemma returned_barrier_unregistered_witness :
  exists w : World,
    deliver (tree4 1) 7%nat [mkMessage 3 10 0; mkMessage 0 10 0]
            (Barrier (tree4 1) 7%nat 10 idle) = Some w /\
    registry w !! 10 = None.
Proof.
  eexists. split.
  - vm_compute. reflexivity.
  - apply (returned_barrier_unregistered (tree4 1) 7%nat 10
             [mkMessage 3 10 0; mkMessage 0 10 0] idle).
    + exact (tree4_bounds 1).
    + exact idle_fresh.
    + intros [H _]. discriminate H.
    + vm_compute. reflexivity.
    + reflexivity.
Defined.

(** * Properties of the kd-tree index maps *)

Import KdTree.

Lemma ArrayList_set_in_range (a : ArrayList) (i v : Z) :
  0 <= i < Z.of_nat (length a) ->
  ArrayList_set a i v = Some (<[Z.to_nat i := Some v]> a).
Proof.
  intros H. unfold ArrayList_set.
  destruct (Z.leb_spec 0 i); [|lia].
  destruct (Z.ltb_spec i (Z.of_nat (length a))); [done|lia].
Qed.

Lemma ArrayList_get_Some (a : ArrayList) (i v : Z) :
  0 <= i -> a !! Z.to_nat i = Some (Some v) -> ArrayList_get a i = Some v.
Proof.
  intros H E. unfold ArrayList_get.
  destruct (Z.leb_spec 0 i); [|lia]. by rewrite E.
Qed.

(** The first loop writes the identity map. *)
Lemma fill_old_from_new_identity (fuel : nat) : forall (i : Z) (a : ArrayList),
  0 <= i -> (Z.to_nat i + fuel)%nat = length a ->
  fill_old_from_new fuel i a =
  Some (take (Z.to_nat i) a ++ (Some <$> seqZ i (Z.of_nat fuel))).
Proof.
  induction fuel as [|fuel IH]; intros i a Hi Hlen; cbn [fill_old_from_new].
  - cbn. rewrite app_nil_r, take_ge by lia. done.
  - rewrite ArrayList_set_in_range by lia. cbn [mbind option_bind].
    rewrite IH by (rewrite ?length_insert; lia).
    f_equal.
    replace (Z.to_nat (i + 1)) with (S (Z.to_nat i)) by lia.
    rewrite (take_S_r _ _ (Some i))
      by (apply list_lookup_insert_eq; lia).
    rewrite take_insert_ge by lia.
    rewrite (seqZ_cons i (Z.of_nat (S fuel))) by lia.
    replace (Z.pred (Z.of_nat (S fuel))) with (Z.of_nat fuel) by lia.
    replace (Z.succ i) with (i + 1) by lia.
    cbn. by rewrite <- app_assoc.
Qed.

(** The second loop, over an index array without repetition whose cells
    are all set and in range: it succeeds, it stores [k] at position
    [old_from_new[k]] for every [k] it visits, and it leaves alone the
    positions that are not the image of a visited [k]. *)
Lemma fill_new_from_old_spec (ofn : ArrayList) (n : nat) :
  NoDup ofn ->
  (forall x, x ∈ ofn -> exists v, x = Some v /\ 0 <= v < Z.of_nat n) ->
  forall (fuel : nat) (i : Z) (a : ArrayList),
  0 <= i -> (Z.to_nat i + fuel)%nat = length ofn -> length a = n ->
  exists a',
    fill_new_from_old fuel i (Some ofn) a = Some a' /\
    length a' = n /\
    (forall k v, i <= k -> ofn !! Z.to_nat k = Some (Some v) ->
       a' !! Z.to_nat v = Some (Some k)) /\
    (forall j : nat,
       (forall k, i <= k -> ofn !! Z.to_nat k <> Some (Some (Z.of_nat j))) ->
       a' !! j = a !! j).
Proof.
  intros Hnd Hran. induction fuel as [|fuel IH]; intros i a Hi Hlen Ha;
    cbn [fill_new_from_old].
  - exists a. split; [done|]. split; [done|]. split; [|done].
    intros k v Hk E. apply lookup_lt_Some in E. lia.
  - destruct (lookup_lt_is_Some_2 ofn (Z.to_nat i)) as [x Ex]; [lia|].
    destruct (Hran x) as (v & -> & Hv); [by eapply list_elem_of_lookup_2|].
    cbn [mbind option_bind].
    rewrite (ArrayList_get_Some ofn i v) by done. cbn [mbind option_bind].
    rewrite ArrayList_set_in_range by lia. cbn [mbind option_bind].
    destruct (IH (i + 1) (<[Z.to_nat v := Some i]> a))
      as (a' & Ef & Hl & Hwritten & Hkept);
      [lia|lia|by rewrite length_insert|].
    exists a'. split; [done|]. split; [done|]. split.
    + intros k u Hk E.
      destruct (decide (k = i)) as [->|NE].
      * assert (u = v) as -> by congruence.
        rewrite (Hkept (Z.to_nat v)).
        { apply list_lookup_insert_eq. lia. }
        intros k Hk' E'. rewrite Z2Nat.id in E' by lia.
        assert (Z.to_nat k = Z.to_nat i) by (by eapply NoDup_lookup).
        lia.
      * apply Hwritten; [lia|done].
    + intros j Hj. rewrite Hkept by (intros k Hk; apply Hj; lia).
      apply list_lookup_insert_ne. intros <-.
      apply (Hj i); [lia|]. by rewrite Z2Nat.id by lia.
Qed.

Section MakeKdTreeFacts.

Variables (Col TKdTree : Type).
Variable new_root : list Col -> TKdTree.
Variable SplitKdTreeMidpoint :
  list Col -> TKdTree -> Z -> option ArrayList ->
  list Col * TKdTree * option ArrayList.

(** What the documentation of [MakeKdTreeMidpoint] says of the split it
    calls: the matrix is re-ordered (it keeps its columns), and the index
    array, when there is one, is re-ordered with it. *)
Hypothesis Split_n_cols : forall m nd leaf p,
  length (SplitKdTreeMidpoint m nd leaf p).1.1 = length m.
Hypothesis Split_null : forall m nd leaf,
  (SplitKdTreeMidpoint m nd leaf None).2 = None.
Hypothesis Split_permutes : forall m nd leaf a,
  exists a', (SplitKdTreeMidpoint m nd leaf (Some a)).2 = Some a' /\ a' ≡ₚ a.

Local Abbreviation Make :=
  (MakeKdTreeMidpoint Col TKdTree new_root SplitKdTreeMidpoint).

Lemma identity_map_cells (n : Z) (a : ArrayList) :
  a ≡ₚ (Some <$> seqZ 0 n) ->
  NoDup a /\
  length a = Z.to_nat n /\
  (forall x, x ∈ a -> exists v, x = Some v /\ 0 <= v < n).
Proof.
  intros P. split; [|split].
  - rewrite P. apply (NoDup_fmap_2 Some), NoDup_seqZ.
  - by rewrite P, length_fmap, length_seqZ.
  - intros x Hx. rewrite P in Hx.
    apply list_elem_of_fmap in Hx as (v & -> & Hv).
    exists v. split; [done|]. apply elem_of_seqZ in Hv. lia.
Qed.

Lemma Make_both (matrix : list Col) (leaf_size : Z) :
  exists b ofn nfo,
    Make matrix leaf_size Uninitialized Uninitialized = Some b /\
    old_from_new Col TKdTree b = Some ofn /\
    new_from_old Col TKdTree b = Some nfo /\
    forall i, 0 <= i < Z.of_nat (length matrix) ->
      exists v, ArrayList_get ofn i = Some v /\ ArrayList_get nfo v = Some i.
Proof.
  unfold MakeKdTreeMidpoint.
  rewrite fill_old_from_new_identity
    by (unfold ArrayList_Init; rewrite ?length_replicate; lia).
  cbn [fmap option_fmap option_map mbind option_bind].
  change (Z.to_nat 0) with 0%nat. rewrite take_0, app_nil_l.
  rewrite Z2Nat.id by lia.
  set (ids := Some <$> seqZ 0 (Z.of_nat (length matrix))).
  destruct (Split_permutes matrix (new_root matrix) leaf_size ids)
    as (a' & Ea & P).
  pose proof (Split_n_cols matrix (new_root matrix) leaf_size (Some ids)) as Hc.
  destruct (SplitKdTreeMidpoint matrix (new_root matrix) leaf_size (Some ids))
    as [[m' nd'] ofn1].
  cbn in Ea, Hc. subst ofn1. rewrite Hc.
  destruct (identity_map_cells _ _ P) as (Hnd & Hlen & Hran).
  rewrite Nat2Z.id in Hlen.
  destruct (fill_new_from_old_spec a' (length matrix) Hnd Hran
              (Z.to_nat (Z.of_nat (length matrix))) 0
              (ArrayList_Init (Z.of_nat (length matrix))))
    as (nfo & Ef & _ & Hwritten & _);
    [lia|lia|unfold ArrayList_Init; rewrite length_replicate; lia|].
  rewrite Ef. cbn [fmap option_fmap option_map mbind option_bind].
  eexists _, a', nfo. split; [reflexivity|]. split; [done|]. split; [done|].
  intros i Hi.
  destruct (lookup_lt_is_Some_2 a' (Z.to_nat i)) as [x Ex]; [lia|].
  destruct (Hran x) as (v & -> & Hv); [by eapply list_elem_of_lookup_2|].
  exists v. split.
  - apply ArrayList_get_Some; [lia|done].
  - apply ArrayList_get_Some; [lia|]. apply (Hwritten i v); [lia|done].
Qed.

Lemma Make_only_old (matrix : list Col) (leaf_size : Z) :
  is_Some (Make matrix leaf_size Uninitialized NULL).
Proof.
  unfold MakeKdTreeMidpoint.
  rewrite fill_old_from_new_identity
    by (unfold ArrayList_Init; rewrite ?length_replicate; lia).
  cbn [fmap option_fmap option_map mbind option_bind].
  destruct (SplitKdTreeMidpoint _ _ _ _) as [[m' nd'] ofn1]. by eexists.
Qed.

Lemma Make_neither (matrix : list Col) (leaf_size : Z) :
  is_Some (Make matrix leaf_size NULL NULL).
Proof.
  unfold MakeKdTreeMidpoint. cbn [mbind option_bind].
  destruct (SplitKdTreeMidpoint _ _ _ _) as [[m' nd'] ofn1]. by eexists.
Qed.

Lemma Make_only_new (matrix : list Col) (leaf_size : Z) :
  matrix <> [] -> Make matrix leaf_size NULL Uninitialized = None.
Proof.
  intros Hne. unfold MakeKdTreeMidpoint. cbn [mbind option_bind].
  pose proof (Split_n_cols matrix (new_root matrix) leaf_size None) as Hc.
  pose proof (Split_null matrix (new_root matrix) leaf_size) as Hn.
  destruct (SplitKdTreeMidpoint matrix (new_root matrix) leaf_size None)
    as [[m' nd'] ofn1].
  cbn in Hc, Hn. subst ofn1. rewrite Hc, Nat2Z.id.
  destruct matrix as [|c cs]; [done|]. reflexivity.
Qed.

(** C10: called with both index lists, [MakeKdTreeMidpoint] returns with
    [new_from_old[old_from_new[i]] = i] for every column [i]; the call is
    defined whenever a non-null [new_from_old] comes with a non-null
    [old_from_new]; with [old_from_new] null and [new_from_old] non-null,
    the loop that fills [new_from_old] reads through the null pointer as
    soon as the matrix has a column. *)
Theorem new_from_old_inverts_old_from_new (matrix : list Col) (leaf_size : Z) :
  (exists b ofn nfo,
     Make matrix leaf_size Uninitialized Uninitialized = Some b /\
     old_from_new Col TKdTree b = Some ofn /\
     new_from_old Col TKdTree b = Some nfo /\
     forall i, 0 <= i < Z.of_nat (length matrix) ->
       exists v, ArrayList_get ofn i = Some v /\ ArrayList_get nfo v = Some i) /\
  (forall o n : ArrayListArg,
     (n = Uninitialized -> o = Uninitialized) ->
     is_Some (Make matrix leaf_size o n)) /\
  (matrix <> [] -> Make matrix leaf_size NULL Uninitialized = None).
Proof.
  split; [apply Make_both|]. split; [|apply Make_only_new].
  intros [|] [|] H.
  - apply Make_neither.
  - by specialize (H eq_refl).
  - apply Make_only_old.
  - destruct (Make_both matrix leaf_size) as (b & _ & _ & -> & _). by eexists.
Qed.

End MakeKdTreeFacts.

Lemma rotate_length {A : Type} (l : list A) : length (rotate l) = length l.
Proof. destruct l as [|x l]; [done|]. cbn. rewrite length_app. cbn. lia. Qed.

Lemma rotate_permutes {A : Type} (l : list A) : rotate l ≡ₚ l.
Proof.
  destruct l as [|x l]; [done|]. cbn.
  symmetry. apply Permutation_cons_append.
Qed.

(** Three columns, the first moved to the end by the split. *)
Example MakeKdTreeMidpoint_rotated :
  MakeKdTreeMidpoint nat unit (fun _ => tt) split_rotate
    [5; 6; 7]%nat 20 Uninitialized Uninitialized =
  Some (mkBuilt nat unit [6; 7; 5]%nat tt
          (Some [Some 1; Some 2; Some 0]) (Some [Some 2; Some 0; Some 1])).
Proof. reflexivity. Qed.

Lemma new_from_old_inverts_old_from_new_witness :
  (exists b ofn nfo,
     MakeKdTreeMidpoint nat unit (fun _ => tt) split_rotate
       [5; 6; 7]%nat 20 Uninitialized Uninitialized = Some b /\
     old_from_new nat unit b = Some ofn /\
     new_from_old nat unit b = Some nfo /\
     forall i, 0 <= i < Z.of_nat (length [5; 6; 7]%nat) ->
       exists v, ArrayList_get ofn i = Some v /\ ArrayList_get nfo v = Some i) /\
  (forall o n : ArrayListArg,
     (n = Uninitialized -> o = Uninitialized) ->
     is_Some (MakeKdTreeMidpoint nat unit (fun _ => tt) split_rotate
                [5; 6; 7]%nat 20 o n)) /\
  ([5; 6; 7]%nat <> [] ->
   MakeKdTreeMidpoint nat unit (fun _ => tt) split_rotate
     [5; 6; 7]%nat 20 NULL Uninitialized = None).
Proof.
  apply (new_from_old_inverts_old_from_new nat unit (fun _ => tt) split_rotate).
  - intros m nd leaf p. apply rotate_length.
  - reflexivity.
  - intros m nd leaf a. exists (rotate a).
    split; [reflexivity|apply rotate_permutes].
Defined.

(** * More on [MakeKdTreeMidpoint], and [LoadKdTree] *)

Section MakeKdTreeMore.

Variables (Col TKdTree : Type).
Variable new_root : list Col -> TKdTree.
Variable SplitKdTreeMidpoint :
  list Col -> TKdTree -> Z -> option ArrayList ->
  list Col * TKdTree * option ArrayList.

Local Abbreviation Make :=
  (MakeKdTreeMidpoint Col TKdTree new_root SplitKdTreeMidpoint).

(** Without [new_from_old] the call is the split on the prepared index
    array, whatever the split does. *)
Lemma Make_without_new (matrix : list Col) (leaf_size : Z) (o : ArrayListArg) :
  Make matrix leaf_size o NULL =
  (let '(m', nd', ofn1) :=
     SplitKdTreeMidpoint matrix (new_root matrix) leaf_size
       (index_array_for matrix o) in
   Some (mkBuilt Col TKdTree m' nd' ofn1 None)).
Proof.
  unfold MakeKdTreeMidpoint, index_array_for. destruct o.
  - cbn [mbind option_bind].
    by destruct (SplitKdTreeMidpoint _ _ _ _) as [[m' nd'] ofn1].
  - rewrite fill_old_from_new_identity
      by (unfold ArrayList_Init; rewrite ?length_replicate; lia).
    cbn [fmap option_fmap option_map mbind option_bind].
    change (Z.to_nat 0) with 0%nat. rewrite take_0, app_nil_l.
    rewrite Z2Nat.id by lia.
    by destruct (SplitKdTreeMidpoint _ _ _ _) as [[m' nd'] ofn1].
Qed.

(** X6: when [old_from_new] is requested and [new_from_old] is not, the
    first loop has set every cell of the index list, cell [i] to [i],
    before the split sees it, and the call returns what the split returns:
    its matrix, its tree, and the index list as the split left it. *)
Theorem split_receives_identity_map (matrix : list Col) (leaf_size : Z) :
  MakeKdTreeMidpoint Col TKdTree new_root SplitKdTreeMidpoint
    matrix leaf_size Uninitialized NULL =
  (let '(m', nd', ofn1) :=
     SplitKdTreeMidpoint matrix (new_root matrix) leaf_size
       (Some (Some <$> seqZ 0 (Z.of_nat (length matrix)))) in
   Some (mkBuilt Col TKdTree m' nd' ofn1 None)).
Proof. apply (Make_without_new matrix leaf_size Uninitialized). Qed.

Hypothesis Split_n_cols : forall m nd leaf p,
  length (SplitKdTreeMidpoint m nd leaf p).1.1 = length m.
Hypothesis Split_permutes : forall m nd leaf a,
  exists a', (SplitKdTreeMidpoint m nd leaf (Some a)).2 = Some a' /\ a' ≡ₚ a.

(** X7: called with both index lists, [MakeKdTreeMidpoint] returns lists
    of [n_cols] cells, all set; [old_from_new] holds every index
    [0 .. n_cols-1] once, and [old_from_new[new_from_old[j]] = j] for
    every original index [j]. *)
Theorem old_from_new_inverts_new_from_old (matrix : list Col) (leaf_size : Z) :
  exists b ofn nfo,
    Make matrix leaf_size Uninitialized Uninitialized = Some b /\
    old_from_new Col TKdTree b = Some ofn /\
    new_from_old Col TKdTree b = Some nfo /\
    length ofn = length matrix /\
    length nfo = length matrix /\
    ofn ≡ₚ (Some <$> seqZ 0 (Z.of_nat (length matrix))) /\
    forall j, 0 <= j < Z.of_nat (length matrix) ->
      exists u, ArrayList_get nfo j = Some u /\
                0 <= u < Z.of_nat (length matrix) /\
                ArrayList_get ofn u = Some j.
Proof.
  unfold MakeKdTreeMidpoint.
  rewrite fill_old_from_new_identity
    by (unfold ArrayList_Init; rewrite ?length_replicate; lia).
  cbn [fmap option_fmap option_map mbind option_bind].
  change (Z.to_nat 0) with 0%nat. rewrite take_0, app_nil_l.
  rewrite Z2Nat.id by lia.
  set (ids := Some <$> seqZ 0 (Z.of_nat (length matrix))).
  destruct (Split_permutes matrix (new_root matrix) leaf_size ids)
    as (a' & Ea & P).
  pose proof (Split_n_cols matrix (new_root matrix) leaf_size (Some ids)) as Hc.
  destruct (SplitKdTreeMidpoint matrix (new_root matrix) leaf_size (Some ids))
    as [[m' nd'] ofn1].
  cbn in Ea, Hc. subst ofn1. rewrite Hc.
  destruct (identity_map_cells _ _ P) as (Hnd & Hlen & Hran).
  rewrite Nat2Z.id in Hlen.
  destruct (fill_new_from_old_spec a' (length matrix) Hnd Hran
              (Z.to_nat (Z.of_nat (length matrix))) 0
              (ArrayList_Init (Z.of_nat (length matrix))))
    as (nfo & Ef & Hln & Hwritten & _);
    [lia|lia|unfold ArrayList_Init; rewrite length_replicate; lia|].
  rewrite Ef. cbn [fmap option_fmap option_map mbind option_bind].
  eexists _, a', nfo. split; [reflexivity|].
  split; [done|]. split; [done|]. split; [done|]. split; [done|].
  split; [done|]. intros j Hj.
  assert (Some j ∈ a') as Hin.
  { rewrite P. subst ids. apply list_elem_of_fmap. exists j.
    split; [done|]. apply elem_of_seqZ. lia. }
  apply list_elem_of_lookup_1 in Hin as [u Hu].
  pose proof (lookup_lt_Some _ _ _ Hu) as Hlt.
  exists (Z.of_nat u). split; [|split; [lia|]].
  - apply ArrayList_get_Some; [lia|].
    apply (Hwritten (Z.of_nat u) j); [lia|]. by rewrite Nat2Z.id.
  - apply ArrayList_get_Some; [lia|]. by rewrite Nat2Z.id.
Qed.

(** X8: for a matrix without columns every combination of the two
    pointer arguments is defined, also a null [old_from_new] with a
    non-null [new_from_old] (no loop body runs); a requested
    [new_from_old] comes back as the empty list. *)
Theorem empty_matrix_defined (leaf_size : Z) (o n : ArrayListArg) :
  exists b,
    Make [] leaf_size o n = Some b /\
    matrix Col TKdTree b = [] /\
    new_from_old Col TKdTree b =
      match n with Uninitialized => Some [] | NULL => None end.
Proof.
  unfold MakeKdTreeMidpoint.
  assert (exists ofn0,
    match o with
    | Uninitialized =>
        Some <$> fill_old_from_new (Z.to_nat (Z.of_nat (length (@nil Col)))) 0
                   (ArrayList_Init (Z.of_nat (length (@nil Col))))
    | NULL => Some None
    end = Some ofn0) as [ofn0 ->] by (destruct o; by eexists).
  cbn [mbind option_bind].
  pose proof (Split_n_cols [] (new_root []) leaf_size ofn0) as Hc.
  destruct (SplitKdTreeMidpoint [] (new_root []) leaf_size ofn0)
    as [[m' nd'] ofn1].
  cbn in Hc. destruct m' as [|c m']; [|discriminate Hc].
  destruct n; by eexists.
Qed.

End MakeKdTreeMore.

Lemma old_from_new_inverts_new_from_old_witness :
  exists b ofn nfo,
    MakeKdTreeMidpoint nat unit (fun _ => tt) split_rotate
      [5; 6; 7]%nat 20 Uninitialized Uninitialized = Some b /\
    old_from_new nat unit b = Some ofn /\
    new_from_old nat unit b = Some nfo /\
    length ofn = length [5; 6; 7]%nat /\
    length nfo = length [5; 6; 7]%nat /\
    ofn ≡ₚ (Some <$> seqZ 0 (Z.of_nat (length [5; 6; 7]%nat))) /\
    forall j, 0 <= j < Z.of_nat (length [5; 6; 7]%nat) ->
      exists u, ArrayList_get nfo j = Some u /\
                0 <= u < Z.of_nat (length [5; 6; 7]%nat) /\
                ArrayList_get ofn u = Some j.
Proof.
  apply (old_from_new_inverts_new_from_old nat unit (fun _ => tt) split_rotate).
  - intros m nd leaf p. apply rotate_length.
  - intros m nd leaf a. exists (rotate a).
    split; [reflexivity|apply rotate_permutes].
Defined.

Lemma empty_matrix_defined_witness :
  exists b,
    MakeKdTreeMidpoint nat unit (fun _ => tt) split_rotate
      [] 20 NULL Uninitialized = Some b /\
    matrix nat unit b = [] /\
    new_from_old nat unit b = Some [].
Proof.
  apply (empty_matrix_defined nat unit (fun _ => tt) split_rotate).
  intros m nd leaf p. apply rotate_length.
Defined.

Section LoadKdTreeFacts.

Variables (Col TKdTree : Type).
Variable new_root : list Col -> TKdTree.
Variable SplitKdTreeMidpoint :
  list Col -> TKdTree -> Z -> option ArrayList ->
  list Col * TKdTree * option ArrayList.
Variable success_t : Type.
Variable SUCCESS_PASS : success_t.
Variable fx_param_str : string -> option string -> option string.
Variable fx_param_int : string -> Z -> Z.
Variable data_Load : option string -> success_t * list Col.

Local Abbreviation Load :=
  (LoadKdTree Col TKdTree new_root SplitKdTreeMidpoint success_t SUCCESS_PASS
     fx_param_str fx_param_int data_Load).

(** The text path, as one equation.  [LoadKdTree] never asks for
    [new_from_old], so the tree construction is the split on the prepared
    index array. *)
Lemma LoadKdTree_text_unfold (o : ArrayListArg) :
  fx_param_str "type" (Some "text"%string) = Some "text"%string ->
  Load o =
  (let '(m', nd', ofn1) :=
     SplitKdTreeMidpoint (data_Load (fx_param_str "" None)).2
       (new_root (data_Load (fx_param_str "" None)).2)
       (fx_param_int "leaflen" 20)
       (index_array_for (data_Load (fx_param_str "" None)).2 o) in
   Some (mkLoaded Col TKdTree success_t
           (data_Load (fx_param_str "" None)).1 (Some m') (Some nd') ofn1
           [FxParamStr "type" (Some "text"%string); FxParamStr "" None;
            FxTimerStart "load";
            FxParamInt "leaflen" 20;
            FxTimerStart "load_matrix"; DataLoad (fx_param_str "" None);
            FxTimerStop "load_matrix";
            FxTimerStart "make_tree";
            MakeTree (fx_param_int "leaflen" 20) o;
            FxTimerStop "make_tree";
            FxTimerStop "load"])).
Proof.
  intros Ht. unfold LoadKdTree. rewrite Ht. cbn [mbind option_bind].
  change (String.eqb "text" "text") with true. cbn iota.
  destruct (data_Load (fx_param_str "" None)) as [st m]. cbn [fst snd].
  rewrite Make_without_new.
  by destruct (SplitKdTreeMidpoint _ _ _ _) as [[m' nd'] ofn1].
Qed.

Lemma LoadKdTree_other_unfold (t : string) (o : ArrayListArg) :
  fx_param_str "type" (Some "text"%string) = Some t -> t <> "text"%string ->
  Load o =
  Some (mkLoaded Col TKdTree success_t SUCCESS_PASS None None None
          [FxParamStr "type" (Some "text"%string); FxParamStr "" None;
           FxTimerStart "load"; FxTimerStop "load"]).
Proof.
  intros Ht Hne. unfold LoadKdTree. rewrite Ht. cbn [mbind option_bind].
  by rewrite (proj2 (String.eqb_neq t "text") Hne).
Qed.

(** X9: when the module's [type] is a string other than "text",
    [LoadKdTree] returns [SUCCESS_PASS] although it has loaded nothing:
    [data::Load] and [MakeKdTreeMidpoint] are not called, the matrix, the
    tree pointer and the index list are left as they were, and the only
    timer started, "load", is stopped. *)
Theorem LoadKdTree_other_type (t : string) (o : ArrayListArg) :
  fx_param_str "type" (Some "text"%string) = Some t -> t <> "text"%string ->
  exists r,
    Load o = Some r /\
    success _ _ _ r = SUCCESS_PASS /\
    loaded_matrix _ _ _ r = None /\
    tree _ _ _ r = None /\
    loaded_old_from_new _ _ _ r = None /\
    calls _ _ _ r =
      [FxParamStr "type" (Some "text"%string); FxParamStr "" None;
       FxTimerStart "load"; FxTimerStop "load"].
Proof.
  intros Ht Hne. rewrite (LoadKdTree_other_unfold t o Ht Hne).
  eexists. split; [reflexivity|]. done.
Qed.

(** X10: when the module's [type] is "text", [LoadKdTree] is defined for
    a null and for a non-null [old_from_new], whatever the split does; it
    returns the status of [data::Load] for the file name read from the
    module, and builds the tree from whatever [data::Load] left in the
    matrix, also when that status is a failure, with the leaf size read
    from "leaflen" (default 20); the timers "load_matrix" and "make_tree"
    run one after the other inside "load". *)
Theorem LoadKdTree_text (o : ArrayListArg) :
  fx_param_str "type" (Some "text"%string) = Some "text"%string ->
  exists b r,
    MakeKdTreeMidpoint Col TKdTree new_root SplitKdTreeMidpoint
      (data_Load (fx_param_str "" None)).2 (fx_param_int "leaflen" 20)
      o NULL = Some b /\
    Load o = Some r /\
    success _ _ _ r = (data_Load (fx_param_str "" None)).1 /\
    loaded_matrix _ _ _ r = Some (matrix Col TKdTree b) /\
    tree _ _ _ r = Some (root Col TKdTree b) /\
    loaded_old_from_new _ _ _ r = old_from_new Col TKdTree b /\
    calls _ _ _ r =
      [FxParamStr "type" (Some "text"%string); FxParamStr "" None;
       FxTimerStart "load";
       FxParamInt "leaflen" 20;
       FxTimerStart "load_matrix"; DataLoad (fx_param_str "" None);
       FxTimerStop "load_matrix";
       FxTimerStart "make_tree";
       MakeTree (fx_param_int "leaflen" 20) o;
       FxTimerStop "make_tree";
       FxTimerStop "load"].
Proof.
  intros Ht. rewrite (LoadKdTree_text_unfold o Ht), Make_without_new.
  destruct (SplitKdTreeMidpoint _ _ _ _) as [[m' nd'] ofn1].
  eexists _, _. split; [reflexivity|]. split; [reflexivity|]. done.
Qed.

(** X11: whenever [LoadKdTree] returns, every timer it started has been
    stopped, the innermost first. *)
Theorem LoadKdTree_timers_balanced (o : ArrayListArg) (r : Loaded Col TKdTree success_t) :
  Load o = Some r -> timers_balanced [] (calls _ _ _ r) = true.
Proof.
  destruct (fx_param_str "type" (Some "text"%string)) as [t|] eqn:Ht.
  - destruct (decide (t = "text"%string)) as [->|Hne].
    + rewrite (LoadKdTree_text_unfold o Ht).
      destruct (SplitKdTreeMidpoint _ _ _ _) as [[m' nd'] ofn1].
      by intros [= <-].
    + rewrite (LoadKdTree_other_unfold t o Ht Hne). by intros [= <-].
  - unfold LoadKdTree. rewrite Ht. discriminate.
Qed.

Hypothesis Split_permutes : forall m nd leaf a,
  exists a', (SplitKdTreeMidpoint m nd leaf (Some a)).2 = Some a' /\ a' ≡ₚ a.

(** X12: on the text path with a non-null [old_from_new], the index list
    [LoadKdTree] hands back holds every index of the columns
    [data::Load] produced exactly once. *)
Theorem LoadKdTree_old_from_new_permutation :
  fx_param_str "type" (Some "text"%string) = Some "text"%string ->
  exists r ofn,
    LoadKdTree Col TKdTree new_root SplitKdTreeMidpoint success_t SUCCESS_PASS
      fx_param_str fx_param_int data_Load Uninitialized = Some r /\
    loaded_old_from_new _ _ _ r = Some ofn /\
    ofn ≡ₚ (Some <$>
             seqZ 0 (Z.of_nat (length (data_Load (fx_param_str "" None)).2))).
Proof.
  intros Ht. rewrite (LoadKdTree_text_unfold Uninitialized Ht).
  cbn [index_array_for].
  destruct (Split_permutes (data_Load (fx_param_str "" None)).2
              (new_root (data_Load (fx_param_str "" None)).2)
              (fx_param_int "leaflen" 20)
              (Some <$> seqZ 0 (Z.of_nat
                 (length (data_Load (fx_param_str "" None)).2))))
    as (a' & Ea & P).
  destruct (SplitKdTreeMidpoint _ _ _ _) as [[m' nd'] ofn1].
  cbn in Ea. subst ofn1. by eexists _, a'.
Qed.

End LoadKdTreeFacts.

Lemma LoadKdTree_other_type_witness :
  exists r,
    LoadKdTree nat unit (fun _ => tt) split_rotate bool true
      params_csv ints_default load_three Uninitialized = Some r /\
    success _ _ _ r = true /\
    loaded_matrix _ _ _ r = None /\
    tree _ _ _ r = None /\
    loaded_old_from_new _ _ _ r = None /\
    calls _ _ _ r =
      [FxParamStr "type" (Some "text"%string); FxParamStr "" None;
       FxTimerStart "load"; FxTimerStop "load"].
Proof.
  apply (LoadKdTree_other_type nat unit (fun _ => tt) split_rotate bool true
           params_csv ints_default load_three "csv" Uninitialized).
  - reflexivity.
  - discriminate.
Defined.

Lemma LoadKdTree_text_witness :
  exists b r,
    MakeKdTreeMidpoint nat unit (fun _ => tt) split_rotate
      (load_three (params_default "" None)).2 (ints_default "leaflen" 20)
      Uninitialized NULL = Some b /\
    LoadKdTree nat unit (fun _ => tt) split_rotate bool true
      params_default ints_default load_three Uninitialized = Some r /\
    success _ _ _ r = (load_three (params_default "" None)).1 /\
    loaded_matrix _ _ _ r = Some (matrix nat unit b) /\
    tree _ _ _ r = Some (root nat unit b) /\
    loaded_old_from_new _ _ _ r = old_from_new nat unit b /\
    calls _ _ _ r =
      [FxParamStr "type" (Some "text"%string); FxParamStr "" None;
       FxTimerStart "load";
       FxParamInt "leaflen" 20;
       FxTimerStart "load_matrix"; DataLoad (params_default "" None);
       FxTimerStop "load_matrix";
       FxTimerStart "make_tree";
       MakeTree (ints_default "leaflen" 20) Uninitialized;
       FxTimerStop "make_tree";
       FxTimerStop "load"].
Proof.
  apply (LoadKdTree_text nat unit (fun _ => tt) split_rotate bool true
           params_default ints_default load_three Uninitialized).
  reflexivity.
Defined.

(** The default module on three columns, run. *)
Example LoadKdTree_default_run :
  LoadKdTree nat unit (fun _ => tt) split_rotate bool true
    params_default ints_default load_three Uninitialized =
  Some (mkLoaded nat unit bool true (Some [6; 7; 5]%nat) (Some tt)
          (Some [Some 1; Some 2; Some 0])
          [FxParamStr "type" (Some "text"%string); FxParamStr "" None;
           FxTimerStart "load";
           FxParamInt "leaflen" 20;
           FxTimerStart "load_matrix"; DataLoad None;
           FxTimerStop "load_matrix";
           FxTimerStart "make_tree"; MakeTree 20 Uninitialized;
           FxTimerStop "make_tree";
           FxTimerStop "load"]).
Proof. reflexivity. Qed.

Lemma LoadKdTree_timers_balanced_witness :
  timers_balanced []
    (calls _ _ _
       (mkLoaded nat unit bool true (Some [6; 7; 5]%nat) (Some tt)
          (Some [Some 1; Some 2; Some 0])
          [FxParamStr "type" (Some "text"%string); FxParamStr "" None;
           FxTimerStart "load";
           FxParamInt "leaflen" 20;
           FxTimerStart "load_matrix"; DataLoad None;
           FxTimerStop "load_matrix";
           FxTimerStart "make_tree"; MakeTree 20 Uninitialized;
           FxTimerStop "make_tree";
           FxTimerStop "load"])) = true.
Proof.
  apply (LoadKdTree_timers_balanced nat unit (fun _ => tt) split_rotate
           bool true params_default ints_default load_three Uninitialized).
  reflexivity.
Defined.

Lemma LoadKdTree_old_from_new_permutation_witness :
  exists r ofn,
    LoadKdTree nat unit (fun _ => tt) split_rotate bool true
      params_default ints_default load_three Uninitialized = Some r /\
    loaded_old_from_new _ _ _ r = Some ofn /\
    ofn ≡ₚ (Some <$>
             seqZ 0 (Z.of_nat (length (load_three (params_default "" None)).2))).
Proof.
  apply (LoadKdTree_old_from_new_permutation nat unit (fun _ => tt)
           split_rotate bool true params_default ints_default load_three).
  - intros m nd leaf a. exists (rotate a).
    split; [reflexivity|apply rotate_permutes].
  - reflexivity.
Defined.
